(** * The chat client of [frontend/src/App.js], embedded and verified

    The React component [App] keeps six pieces of state ([username],
    [isJoined], [messages], [inputMessage], [socket], [isConnected]) and
    reacts to user input, to the answers of the user directory and to the
    four WebSocket callbacks.  Every handler of the source is a definition of
    the same name below, written in a small state / trace / exception monad;
    the runtime pieces the handlers call ([String.prototype.trim],
    [JSON.parse], [JSON.stringify], property access, array spread, template
    literals) are modelled in the first modules.

    JavaScript strings are sequences of UTF-16 code units, so they are
    [list N] here; [js "..."] turns an ASCII literal into one. *)

From Stdlib Require Import List NArith Bool Ascii String Lia.
Import ListNotations.

Local Open Scope N_scope.
Set Warnings "-register-all".

(* ------------------------------------------------------------------ *)
(** ** JavaScript strings *)

Module JsString.

Definition jsstring := list N.

Definition js (s : string) : jsstring :=
  map N_of_ascii (list_ascii_of_string s).

(** The same with every apostrophe read as a double quote, to write JSON
    text legibly: [jq "{'type':'history'}"]. *)
Definition jq (s : string) : jsstring :=
  map (fun c => if c =? 39 then 34 else c) (js s).

Fixpoint eqb (a b : jsstring) : bool :=
  match a, b with
  | [], [] => true
  | x :: a', y :: b' => (x =? y) && eqb a' b'
  | _, _ => false
  end.

(** [s.startsWith(p)] *)
Fixpoint startsWith (p s : jsstring) : bool :=
  match p, s with
  | [], _ => true
  | x :: p', y :: s' => (x =? y) && startsWith p' s'
  | _ :: _, [] => false
  end.

(** The code units [trim] removes: ECMAScript WhiteSpace (TAB, VT, FF, SP,
    NBSP, ZWNBSP and the Unicode space separators) and LineTerminator
    (LF, CR, LS, PS). *)
Definition is_whitespace (c : N) : bool :=
  (c =? 9) || (c =? 10) || (c =? 11) || (c =? 12) || (c =? 13) ||
  (c =? 32) || (c =? 160) || (c =? 5760) ||
  ((8192 <=? c) && (c <=? 8202)) ||
  (c =? 8232) || (c =? 8233) || (c =? 8239) || (c =? 8287) ||
  (c =? 12288) || (c =? 65279).

Fixpoint trimStart (s : jsstring) : jsstring :=
  match s with
  | c :: s' => if is_whitespace c then trimStart s' else s
  | [] => []
  end.

(** [s.trim()] *)
Definition trim (s : jsstring) : jsstring :=
  rev (trimStart (rev (trimStart s))).

(** ToBoolean of a string: only the empty string is falsy. *)
Definition truthy (s : jsstring) : bool :=
  match s with [] => false | _ :: _ => true end.

(** The iterator of a string yields code points: a high surrogate followed
    by a low surrogate is one element, every other code unit is its own. *)
Definition is_high (c : N) : bool := (55296 <=? c) && (c <=? 56319).
Definition is_low (c : N) : bool := (56320 <=? c) && (c <=? 57343).

Fixpoint code_points (s : jsstring) : list jsstring :=
  match s with
  | [] => []
  | c :: s' =>
      match s' with
      | d :: s'' =>
          if is_high c && is_low d then [c; d] :: code_points s''
          else [c] :: code_points s'
      | [] => [[c]]
      end
  end.

End JsString.
Import JsString.

(* ------------------------------------------------------------------ *)
(** ** JavaScript values and completions *)

(** The values a parsed frame and the [messages] state can hold.  A number
    keeps the text of its literal: no handler inspects a number, they are
    only stored and passed on. *)
Inductive value : Type :=
| VUndefined
| VNull
| VBool (b : bool)
| VNum (literal : jsstring)
| VStr (s : jsstring)
| VArr (elems : list value)
| VObj (props : list (jsstring * value)).

(** The exceptions the handlers can meet. *)
Inductive exn : Type :=
| SyntaxError                        (* JSON.parse on text that is not JSON *)
| TypeError                          (* property of null, a value the template cannot print, ... *)
| AxiosError (status : option N)     (* error.response.status, when the server answered *)
| DOMException.                      (* new WebSocket on a URL it refuses *)

Inductive completion (A : Type) : Type :=
| Normal (a : A)
| Throw (e : exn).
Arguments Normal {A} a.
Arguments Throw {A} e.

(** Own properties of an object built by [JSON.parse]: a key written twice
    keeps the value written last. *)
Fixpoint own_property (k : jsstring) (props : list (jsstring * value))
  : option value :=
  match props with
  | [] => None
  | (k', v) :: rest =>
      match own_property k rest with
      | Some w => Some w
      | None => if eqb k k' then Some v else None
      end
  end.

(** [v.k] for the property names the handlers read ([type], [messages],
    [message], [username]): none of them exists on a prototype, so the
    access gives the own property of an object, [undefined] on any other
    value, and throws on [null] and [undefined]. *)
Definition get (v : value) (k : jsstring) : completion value :=
  match v with
  | VUndefined | VNull => Throw TypeError
  | VObj props =>
      match own_property k props with
      | Some w => Normal w
      | None => Normal VUndefined
      end
  | _ => Normal VUndefined
  end.

(** [[...v]]: arrays and strings are iterable, nothing else that a frame
    can carry is. *)
Definition spread (v : value) : completion (list value) :=
  match v with
  | VArr l => Normal l
  | VStr s => Normal (map VStr (code_points s))
  | _ => Throw TypeError
  end.

(** Whether [`${v}`] throws.  An object made by [JSON.parse] converts through
    [Object.prototype.toString] unless an own [toString] property (never
    callable) hides it, and then conversion fails; an array joins the
    conversions of its elements, skipping [null] and [undefined]. *)
Fixpoint ToString_throws (v : value) : bool :=
  match v with
  | VObj props => existsb (fun kv => eqb (fst kv) (js "toString")) props
  | VArr l => existsb ToString_throws l
  | _ => false
  end.

(* ------------------------------------------------------------------ *)
(** ** [JSON.parse]

    The grammar of ECMA-404 as [JSON.parse] accepts it, read one code unit at
    a time: [lexer] is the token being read, [expect] what the grammar allows
    next, and the stack holds the arrays and objects that are still open.
    Reading is a fold over the text, so it is total. *)

Module JSON.

Inductive numstate : Type :=
| NMinus | NZero | NInt | NDot | NFrac | NExp | NExpSign | NExpDigits.

Inductive lexer : Type :=
| LNone
| LStr (acc : jsstring)
| LEsc (acc : jsstring)
| LUni (acc : jsstring) (k : nat) (code : N)
| LNum (st : numstate) (acc : jsstring)
| LLit (rest : jsstring) (v : value).

Inductive expect : Type :=
| EValue | EValueOrClose | EKeyOrClose | EKey | EColon | ECommaOrClose
| EEnd (v : value).

Inductive context : Type :=
| CArr (elems : list value)
| CObj (props : list (jsstring * value)) (key : option jsstring).

Record parser : Type := mkParser
  { stack : list context; expecting : expect; lexing : lexer }.

(** The parser inside a string literal of which [acc] has been read. *)
Definition in_string (stk : list context) (e : expect) (acc : jsstring) : parser :=
  mkParser stk e (LStr acc).

Definition is_digit (c : N) : bool := (48 <=? c) && (c <=? 57).

Definition hex_digit (c : N) : option N :=
  if is_digit c then Some (c - 48)
  else if (97 <=? c) && (c <=? 102) then Some (c - 87)
  else if (65 <=? c) && (c <=? 70) then Some (c - 55)
  else None.

Definition value_allowed (e : expect) : bool :=
  match e with EValue | EValueOrClose => true | _ => false end.

(** A value is complete: it is the result, an element of the open array or
    the value of the pending key of the open object. *)
Definition push_value (v : value) (stk : list context) : option parser :=
  match stk with
  | [] => Some (mkParser [] (EEnd v) LNone)
  | CArr es :: stk' => Some (mkParser (CArr (v :: es) :: stk') ECommaOrClose LNone)
  | CObj ps (Some k) :: stk' =>
      Some (mkParser (CObj ((k, v) :: ps) None :: stk') ECommaOrClose LNone)
  | CObj _ None :: _ => None
  end.

(** A string token is complete: a key where a key may stand, a value where
    a value may stand. *)
Definition push_string (s : jsstring) (p : parser) : option parser :=
  match expecting p, stack p with
  | (EKeyOrClose | EKey), CObj ps None :: stk' =>
      Some (mkParser (CObj ps (Some s) :: stk') EColon LNone)
  | (EValue | EValueOrClose), stk => push_value (VStr s) stk
  | _, _ => None
  end.

(** One code unit between tokens. *)
Definition step_between (c : N) (p : parser) : option parser :=
  let e := expecting p in
  let stk := stack p in
  if (c =? 32) || (c =? 9) || (c =? 10) || (c =? 13) then Some p
  else if c =? 34 (* double quote *) then
    match e with
    | EValue | EValueOrClose | EKeyOrClose | EKey => Some (mkParser stk e (LStr []))
    | _ => None
    end
  else if c =? 123 (* { *) then
    if value_allowed e then Some (mkParser (CObj [] None :: stk) EKeyOrClose LNone)
    else None
  else if c =? 91 (* [ *) then
    if value_allowed e then Some (mkParser (CArr [] :: stk) EValueOrClose LNone)
    else None
  else if c =? 93 (* ] *) then
    match e, stk with
    | (EValueOrClose | ECommaOrClose), CArr es :: stk' => push_value (VArr (rev es)) stk'
    | _, _ => None
    end
  else if c =? 125 (* } *) then
    match e, stk with
    | (EKeyOrClose | ECommaOrClose), CObj ps None :: stk' => push_value (VObj (rev ps)) stk'
    | _, _ => None
    end
  else if c =? 44 (* , *) then
    match e, stk with
    | ECommaOrClose, CArr _ :: _ => Some (mkParser stk EValue LNone)
    | ECommaOrClose, CObj _ None :: _ => Some (mkParser stk EKey LNone)
    | _, _ => None
    end
  else if c =? 58 (* : *) then
    match e with
    | EColon => Some (mkParser stk EValue LNone)
    | _ => None
    end
  else if negb (value_allowed e) then None
  else if c =? 45 (* - *) then Some (mkParser stk e (LNum NMinus [c]))
  else if c =? 48 (* 0 *) then Some (mkParser stk e (LNum NZero [c]))
  else if is_digit c then Some (mkParser stk e (LNum NInt [c]))
  else if c =? 116 (* t *) then Some (mkParser stk e (LLit (js "rue") (VBool true)))
  else if c =? 102 (* f *) then Some (mkParser stk e (LLit (js "alse") (VBool false)))
  else if c =? 110 (* n *) then Some (mkParser stk e (LLit (js "ull") VNull))
  else None.

(** The next state of a number literal, when [c] continues it. *)
Definition num_next (st : numstate) (c : N) : option numstate :=
  let exponent := (c =? 101) || (c =? 69) in
  match st with
  | NMinus => if c =? 48 then Some NZero else if is_digit c then Some NInt else None
  | NZero => if c =? 46 then Some NDot else if exponent then Some NExp else None
  | NInt =>
      if is_digit c then Some NInt
      else if c =? 46 then Some NDot else if exponent then Some NExp else None
  | NDot => if is_digit c then Some NFrac else None
  | NFrac => if is_digit c then Some NFrac else if exponent then Some NExp else None
  | NExp =>
      if (c =? 43) || (c =? 45) then Some NExpSign
      else if is_digit c then Some NExpDigits else None
  | NExpSign => if is_digit c then Some NExpDigits else None
  | NExpDigits => if is_digit c then Some NExpDigits else None
  end.

Definition num_complete (st : numstate) : bool :=
  match st with NZero | NInt | NFrac | NExpDigits => true | _ => false end.

Definition step (c : N) (p : parser) : option parser :=
  let stk := stack p in
  let e := expecting p in
  match lexing p with
  | LNone => step_between c p
  | LStr acc =>
      if c =? 34 then push_string (rev acc) p
      else if c =? 92 then Some (mkParser stk e (LEsc acc))
      else if c <? 32 then None
      else Some (mkParser stk e (LStr (c :: acc)))
  | LEsc acc =>
      let plain d := Some (mkParser stk e (LStr (d :: acc))) in
      if (c =? 34) || (c =? 92) || (c =? 47) then plain c
      else if c =? 98 then plain 8
      else if c =? 102 then plain 12
      else if c =? 110 then plain 10
      else if c =? 114 then plain 13
      else if c =? 116 then plain 9
      else if c =? 117 then Some (mkParser stk e (LUni acc 0 0))
      else None
  | LUni acc k code =>
      match hex_digit c with
      | Some d =>
          let code' := code * 16 + d in
          match k with
          | 3%nat => Some (mkParser stk e (LStr (code' :: acc)))
          | _ => Some (mkParser stk e (LUni acc (S k) code'))
          end
      | None => None
      end
  | LNum st acc =>
      match num_next st c with
      | Some st' => Some (mkParser stk e (LNum st' (c :: acc)))
      | None =>
          if num_complete st then
            match push_value (VNum (rev acc)) stk with
            | Some p' => step_between c p'
            | None => None
            end
          else None
      end
  | LLit rest v =>
      match rest with
      | c' :: rest' =>
          if c =? c' then
            match rest' with
            | [] => push_value v stk
            | _ :: _ => Some (mkParser stk e (LLit rest' v))
            end
          else None
      | [] => None
      end
  end.

Fixpoint run (text : jsstring) (p : parser) : option parser :=
  match text with
  | [] => Some p
  | c :: text' =>
      match step c p with
      | Some p' => run text' p'
      | None => None
      end
  end.

(** End of the text: a number may still be open, nothing else. *)
Definition finish (p : parser) : option value :=
  let closed :=
    match lexing p with
    | LNone => Some p
    | LNum st acc =>
        if num_complete st then push_value (VNum (rev acc)) (stack p) else None
    | _ => None
    end in
  match closed with
  | Some p' =>
      match expecting p', stack p' with
      | EEnd v, [] => Some v
      | _, _ => None
      end
  | None => None
  end.

Definition parse (text : jsstring) : completion value :=
  match run text (mkParser [] EValue LNone) with
  | Some p =>
      match finish p with
      | Some v => Normal v
      | None => Throw SyntaxError
      end
  | None => Throw SyntaxError
  end.

(** *** [JSON.stringify] *)

Definition hex_char (d : N) : N := if d <? 10 then 48 + d else 87 + d.

(** [\uXXXX], four lower-case hexadecimal digits. *)
Definition unicode_escape (c : N) : jsstring :=
  [92; 117; hex_char (c / 4096 mod 16); hex_char (c / 256 mod 16);
   hex_char (c / 16 mod 16); hex_char (c mod 16)].

(** QuoteJSONString on one code point that is a single code unit. *)
Definition quote_unit (c : N) : jsstring :=
  if c =? 8 then js "\b"
  else if c =? 9 then js "\t"
  else if c =? 10 then js "\n"
  else if c =? 12 then js "\f"
  else if c =? 13 then js "\r"
  else if c =? 34 then [92; 34]
  else if c =? 92 then [92; 92]
  else if (c <? 32) || is_high c || is_low c then unicode_escape c
  else [c].

(** A surrogate pair is one code point and is copied; a surrogate on its
    own is escaped. *)
Fixpoint quote_body (s : jsstring) : jsstring :=
  match s with
  | [] => []
  | c :: s' =>
      match s' with
      | d :: s'' =>
          if is_high c && is_low d then c :: d :: quote_body s''
          else quote_unit c ++ quote_body s'
      | [] => quote_unit c
      end
  end.

Definition quote (s : jsstring) : jsstring := 34 :: quote_body s ++ [34].

Fixpoint join_comma (parts : list jsstring) : jsstring :=
  match parts with
  | [] => []
  | [x] => x
  | x :: rest => x ++ 44 :: join_comma rest
  end.

(** [JSON.stringify(v)] without indentation.  [undefined] has no text: it
    is [null] inside an array and its property is left out of an object.
    Properties are printed in the order of the list, which is the order of
    an object literal whose keys are distinct and not array indices. *)
Fixpoint stringify (v : value) : option jsstring :=
  match v with
  | VUndefined => None
  | VNull => Some (js "null")
  | VBool true => Some (js "true")
  | VBool false => Some (js "false")
  | VNum literal => Some literal
  | VStr s => Some (quote s)
  | VArr l =>
      Some (91 :: join_comma
                    (map (fun x => match stringify x with
                                   | Some t => t
                                   | None => js "null"
                                   end) l) ++ [93])
  | VObj ps =>
      Some (123 :: join_comma
                     (flat_map (fun kv => let '(k, x) := kv in
                                          match stringify x with
                                          | Some t => [quote k ++ 58 :: t]
                                          | None => []
                                          end) ps) ++ [125])
  end.

End JSON.

(* ------------------------------------------------------------------ *)
(** ** The component state, its effects and the handler monad *)

(** The object [new WebSocket(url)] returns. *)
Record WebSocket : Type := mkWebSocket { ws_url : jsstring }.

(** The six [useState] cells of [App]. *)
Record State : Type := mkState
  { username : jsstring;
    isJoined : bool;
    messages : value;
    inputMessage : jsstring;
    socket : option WebSocket;
    isConnected : bool }.

(** [useState('')], [useState(false)], [useState([])], [useState('')],
    [useState(null)], [useState(false)]. *)
Definition initial : State :=
  mkState [] false (VArr []) [] None false.

(** What a handler does to the outside, in order. *)
Inductive effect : Type :=
| ConsoleLog (text : jsstring)
| ConsoleLogPresence (who : value) (text : jsstring)   (* `${who}` followed by text *)
| ConsoleError (text : jsstring) (error : option exn)
| AxiosGet (url : jsstring)
| AxiosPost (url : jsstring) (params : list (jsstring * jsstring))
| NewWebSocket (url : jsstring)
| SocketSend (data : jsstring).

(** What the handlers cannot decide: the configured endpoint, the answers of
    the directory to a lookup and to a create, and the URLs the WebSocket
    constructor refuses. *)
Record Env : Type := mkEnv
  { REACT_APP_API_URL : option jsstring;
    directory_get : jsstring -> completion unit;
    directory_post : jsstring -> list (jsstring * jsstring) -> completion unit;
    websocket_refuses : jsstring -> bool }.

(** A handler reads and writes the state, emits effects and may throw; the
    state writes and effects made before a throw stay. *)
Definition M (A : Type) : Type := State -> completion A * State * list effect.

Definition ret {A} (a : A) : M A := fun s => (Normal a, s, []).

Definition bind {A B} (m : M A) (k : A -> M B) : M B :=
  fun s =>
    match m s with
    | (Normal a, s1, t1) => let '(r, s2, t2) := k a s1 in (r, s2, t1 ++ t2)
    | (Throw e, s1, t1) => (Throw e, s1, t1)
    end.

Definition throw {A} (e : exn) : M A := fun s => (Throw e, s, []).

(** [try { m } catch (error) { h error }] *)
Definition try_catch {A} (m : M A) (h : exn -> M A) : M A :=
  fun s =>
    match m s with
    | (Normal a, s1, t1) => (Normal a, s1, t1)
    | (Throw e, s1, t1) => let '(r, s2, t2) := h e s1 in (r, s2, t1 ++ t2)
    end.

Definition lift {A} (c : completion A) : M A :=
  fun s => (c, s, []).

Definition read {A} (field : State -> A) : M A := fun s => (Normal (field s), s, []).

Definition emit (e : effect) : M unit := fun s => (Normal tt, s, [e]).

Declare Scope handler_scope.
Delimit Scope handler_scope with handler.
Notation "x <- m ;; k" := (bind m (fun x => k))
  (at level 100, m at next level, right associativity) : handler_scope.
Notation "m ;; k" := (bind m (fun _ => k))
  (at level 100, right associativity) : handler_scope.
Local Open Scope handler_scope.

(** The state setters. *)
Definition setUsername (v : jsstring) : M unit :=
  fun s => (Normal tt, mkState v (isJoined s) (messages s) (inputMessage s) (socket s) (isConnected s), []).
Definition setIsJoined (v : bool) : M unit :=
  fun s => (Normal tt, mkState (username s) v (messages s) (inputMessage s) (socket s) (isConnected s), []).
Definition setMessages (v : value) : M unit :=
  fun s => (Normal tt, mkState (username s) (isJoined s) v (inputMessage s) (socket s) (isConnected s), []).
Definition setInputMessage (v : jsstring) : M unit :=
  fun s => (Normal tt, mkState (username s) (isJoined s) (messages s) v (socket s) (isConnected s), []).
Definition setSocket (v : option WebSocket) : M unit :=
  fun s => (Normal tt, mkState (username s) (isJoined s) (messages s) (inputMessage s) v (isConnected s), []).
Definition setIsConnected (v : bool) : M unit :=
  fun s => (Normal tt, mkState (username s) (isJoined s) (messages s) (inputMessage s) (socket s) v, []).

(** [setMessages(prev => f(prev))].  The call only hands the updater to
    React and returns; React applies the queued updates in order, an updater
    to the value the previous ones left, so the cell ends with [f prev].
    An exception of the updater is raised inside React, never in the handler
    that queued it, and the cell is not written.  (The only updater of the
    component spreads the log; a log that cannot be spread is one the
    message list could not map over either, so by then the component is no
    longer on the page and a write to its cell is lost in any case.) *)
Definition setMessages_updater (f : value -> completion value) : M unit :=
  prev <- read messages ;;
  match f prev with
  | Normal next => setMessages next
  | Throw _ => ret tt
  end.

(* ------------------------------------------------------------------ *)
(** ** The handlers of [App] *)

(** [process.env.REACT_APP_API_URL || 'http://localhost:8000']: an unset
    variable and the empty string both give the default. *)
Definition API_URL (env : Env) : jsstring :=
  match REACT_APP_API_URL env with
  | Some url => if truthy url then url else js "http://localhost:8000"
  | None => js "http://localhost:8000"
  end.

(** [s.replace(/^https?:\/\//, '')] *)
Definition strip_scheme (s : jsstring) : jsstring :=
  if startsWith (js "http://") s then skipn 7 s
  else if startsWith (js "https://") s then skipn 8 s
  else s.

(** [s.replace(/\/$/, '')]: one slash, at the very end. *)
Definition strip_trailing_slash (s : jsstring) : jsstring :=
  match rev s with
  | 47 :: r => rev r
  | _ => s
  end.

Definition WS_URL (env : Env) : jsstring :=
  strip_trailing_slash (strip_scheme (API_URL env)).

(** [new WebSocket(url)] *)
Definition new_WebSocket (env : Env) (url : jsstring) : M WebSocket :=
  emit (NewWebSocket url) ;;
  if websocket_refuses env url then throw DOMException
  else ret (mkWebSocket url).

(** [ws.onopen] *)
Definition ws_onopen : M unit :=
  emit (ConsoleLog (js "Connected to chat")) ;;
  setIsConnected true.

(** [v === 'literal'] *)
Definition strict_equals (v : value) (literal : jsstring) : bool :=
  match v with
  | VStr s => eqb s literal
  | _ => false
  end.

(** [console.log(`${who} joined the chat`)], the template first. *)
Definition log_presence (who : value) (text : jsstring) : M unit :=
  if ToString_throws who then throw TypeError
  else emit (ConsoleLogPresence who text).

(** [ws.onmessage] *)
Definition ws_onmessage (event_data : jsstring) : M unit :=
  data <- lift (JSON.parse event_data) ;;
  type <- lift (get data (js "type")) ;;
  if strict_equals type (js "history") then
    msgs <- lift (get data (js "messages")) ;;
    setMessages msgs
  else if strict_equals type (js "new_message") then
    setMessages_updater (fun prev =>
      match spread prev with
      | Normal elems =>
          match get data (js "message") with
          | Normal message => Normal (VArr (elems ++ [message]))
          | Throw e => Throw e
          end
      | Throw e => Throw e
      end)
  else if strict_equals type (js "user_joined") then
    who <- lift (get data (js "username")) ;;
    log_presence who (js " joined the chat")
  else if strict_equals type (js "user_left") then
    who <- lift (get data (js "username")) ;;
    log_presence who (js " left the chat")
  else
    ret tt.

(** [ws.onclose] *)
Definition ws_onclose : M unit :=
  emit (ConsoleLog (js "Disconnected from chat")) ;;
  setIsConnected false.

(** [ws.onerror] *)
Definition ws_onerror : M unit :=
  emit (ConsoleError (js "WebSocket error:") None).

Definition connectWebSocket (env : Env) : M unit :=
  let wsProtocol :=
    if startsWith (js "https") (API_URL env) then js "wss" else js "ws" in
  name <- read username ;;
  ws <- new_WebSocket env (wsProtocol ++ js "://" ++ WS_URL env ++ js "/ws/" ++ name) ;;
  setSocket (Some ws).

(** [axios.get(url)] and [axios.post(url, null, { params })], awaited. *)
Definition axios_get (env : Env) (url : jsstring) : M unit :=
  emit (AxiosGet url) ;;
  lift (directory_get env url).

Definition axios_post (env : Env) (url : jsstring)
    (params : list (jsstring * jsstring)) : M unit :=
  emit (AxiosPost url params) ;;
  lift (directory_post env url params).

(** [error.response && error.response.status === 404] *)
Definition is_not_found (error : exn) : bool :=
  match error with
  | AxiosError (Some status) => status =? 404
  | _ => false
  end.

Definition joinChat (env : Env) : M unit :=
  name <- read username ;;
  if truthy (trim name) then
    try_catch
      (axios_get env (js "/users/" ++ trim name) ;;
       setIsJoined true ;;
       connectWebSocket env)
      (fun error =>
         if is_not_found error then
           axios_post env (js "/users") [(js "username", trim name)] ;;
           setIsJoined true ;;
           connectWebSocket env
         else
           emit (ConsoleError (js "Error joining chat:") (Some error)))
  else
    ret tt.

(** [socket.send(data)]; the call is made on the object held in [socket]. *)
Definition socket_send (data : option jsstring) : M unit :=
  match data with
  | Some text => emit (SocketSend text)
  | None => emit (SocketSend (js "undefined"))
  end.

Definition sendMessage : M unit :=
  input <- read inputMessage ;;
  sock <- read socket ;;
  connected <- read isConnected ;;
  if truthy (trim input) &&
     (match sock with Some _ => true | None => false end) && connected
  then
    socket_send (JSON.stringify
                   (VObj [(js "type", VStr (js "message"));
                          (js "content", VStr (trim input))])) ;;
    setInputMessage []
  else
    ret tt.

(** [handleKeyPress] *)
Definition handleKeyPress (key : jsstring) : M unit :=
  if eqb key (js "Enter") then sendMessage else ret tt.

(* ------------------------------------------------------------------ *)
(** ** The event loop

    The browser calls one callback of the socket per transport event, each
    to completion, in the order of delivery.  An exception that leaves a
    callback is reported by the browser and the next event is delivered all
    the same. *)

Inductive ws_event : Type :=
| Open
| Message (data : jsstring)
| Close
| Error.

Definition handler (ev : ws_event) : M unit :=
  match ev with
  | Open => ws_onopen
  | Message data => ws_onmessage data
  | Close => ws_onclose
  | Error => ws_onerror
  end.

Record World : Type := mkWorld
  { state : State; trace : list effect; uncaught : list exn }.

Definition start (s : State) : World := mkWorld s [] [].

Definition deliver (w : World) (ev : ws_event) : World :=
  match handler ev (state w) with
  | (Normal _, s', t) => mkWorld s' (trace w ++ t) (uncaught w)
  | (Throw e, s', t) => mkWorld s' (trace w ++ t) (uncaught w ++ [e])
  end.

Definition deliver_all (evs : list ws_event) (w : World) : World :=
  fold_left deliver evs w.

(** The message log after a sequence of inbound frames. *)
Definition process_frames (frames : list jsstring) (s : State) : World :=
  deliver_all (map Message frames) (start s).

Definition log (w : World) : value := messages (state w).

(* ------------------------------------------------------------------ *)
(** ** What the specification calls things *)

(** The connection is Connected when a socket is held and its [onopen] has
    set the flag: the two tests of [sendMessage]. *)
Definition connected (s : State) : bool :=
  match socket s with
  | Some _ => isConnected s
  | None => false
  end.

(** A Message record as the specification describes it and as the rendering
    code reads it: an object with a [username], a [content] that is not
    blank and a [timestamp]; [id] is optional. *)
Definition is_message (v : value) : bool :=
  match v with
  | VObj ps =>
      match own_property (js "username") ps, own_property (js "content") ps,
            own_property (js "timestamp") ps with
      | Some (VStr _), Some (VStr c), Some (VStr _ | VNum _) => truthy (trim c)
      | _, _, _ => false
      end
  | _ => false
  end.

Definition is_message_log (v : value) : bool :=
  match v with
  | VArr l => forallb is_message l
  | _ => false
  end.

(** The tagged events of the specification's dispatch table. *)
Inductive frame : Type :=
| History (msgs : list value)
| NewMessage (message : value)
| UserJoined (who : jsstring)
| UserLeft (who : jsstring).

(** A parsed frame is well formed when it is an object whose [type] is one
    of the four tags and whose payload field has the shape of the table. *)
Definition decode (data : value) : option frame :=
  match data with
  | VObj ps =>
      match own_property (js "type") ps with
      | Some (VStr t) =>
          if eqb t (js "history") then
            match own_property (js "messages") ps with
            | Some (VArr l) => if forallb is_message l then Some (History l) else None
            | _ => None
            end
          else if eqb t (js "new_message") then
            match own_property (js "message") ps with
            | Some m => if is_message m then Some (NewMessage m) else None
            | None => None
            end
          else if eqb t (js "user_joined") then
            match own_property (js "username") ps with
            | Some (VStr u) => Some (UserJoined u)
            | _ => None
            end
          else if eqb t (js "user_left") then
            match own_property (js "username") ps with
            | Some (VStr u) => Some (UserLeft u)
            | _ => None
            end
          else None
      | _ => None
      end
  | _ => None
  end.

Definition well_formed (raw : jsstring) : option frame :=
  match JSON.parse raw with
  | Normal data => decode data
  | Throw _ => None
  end.

(** The log the specification expects, in its words: the payload of the last
    [history] frame, then the payload of every [new_message] frame that came
    after it.  [since_last_history] gives that payload, if there is such a
    frame, and the frames after it; before any [history] frame the base is
    the log the sequence started from. *)
Fixpoint since_last_history (fs : list frame) : option (list value) * list frame :=
  match fs with
  | [] => (None, [])
  | f :: fs' =>
      match since_last_history fs' with
      | (Some h, after) => (Some h, after)
      | (None, after) =>
          match f with
          | History l => (Some l, after)
          | _ => (None, f :: after)
          end
      end
  end.

Definition new_messages (fs : list frame) : list value :=
  flat_map (fun f => match f with NewMessage m => [m] | _ => [] end) fs.

Definition expected_log (before : list value) (fs : list frame) : list value :=
  match since_last_history fs with
  | (Some h, after) => h ++ new_messages after
  | (None, after) => before ++ new_messages after
  end.

(** The tag of a frame that parses, as [switch (data.type)] sees it. *)
Definition tag_is (raw : jsstring) (tag : jsstring) : bool :=
  match JSON.parse raw with
  | Normal data =>
      match get data (js "type") with
      | Normal t => strict_equals t tag
      | Throw _ => false
      end
  | Throw _ => false
  end.

Definition recognized (t : value) : bool :=
  strict_equals t (js "history") || strict_equals t (js "new_message") ||
  strict_equals t (js "user_joined") || strict_equals t (js "user_left").

(** The two kinds of malformed frame: text that is not JSON, and a JSON
    object whose [type] is none of the four tags. *)
Definition malformed (raw : jsstring) : bool :=
  match JSON.parse raw with
  | Throw _ => true
  | Normal (VObj ps) =>
      match own_property (js "type") ps with
      | Some t => negb (recognized t)
      | None => true
      end
  | Normal _ => false
  end.

Definition with_messages (s : State) (v : value) : State :=
  mkState (username s) (isJoined s) v (inputMessage s) (socket s) (isConnected s).

Definition count_posts (t : list effect) : nat :=
  List.length (filter (fun e => match e with AxiosPost _ _ => true | _ => false end) t).

Definition count_gets (t : list effect) : nat :=
  List.length (filter (fun e => match e with AxiosGet _ => true | _ => false end) t).

Definition opens_socket (t : list effect) : bool :=
  existsb (fun e => match e with NewWebSocket _ => true | _ => false end) t.

Definition sent_frames (t : list effect) : list jsstring :=
  flat_map (fun e => match e with SocketSend d => [d] | _ => [] end) t.

(** Whether the frame is an object without the property [field]. *)
Definition payload_absent (raw : jsstring) (field : jsstring) : bool :=
  match JSON.parse raw with
  | Normal (VObj ps) =>
      match own_property field ps with
      | None => true
      | Some _ => false
      end
  | _ => false
  end.

(** The states the component goes through: it starts from [initial]; the
    user types, submits the join form, sends; and the browser calls a
    transport callback only on a socket that [connectWebSocket] has made,
    which by then is held in [socket]. *)
Inductive reachable : State -> Prop :=
| reach_initial : reachable initial
| reach_setUsername (s : State) (v : jsstring) :
    reachable s -> reachable (snd (fst (setUsername v s)))
| reach_setInputMessage (s : State) (v : jsstring) :
    reachable s -> reachable (snd (fst (setInputMessage v s)))
| reach_joinChat (env : Env) (s : State) :
    reachable s -> reachable (snd (fst (joinChat env s)))
| reach_handleKeyPress (key : jsstring) (s : State) :
    reachable s -> reachable (snd (fst (handleKeyPress key s)))
| reach_sendMessage (s : State) :
    reachable s -> reachable (snd (fst (sendMessage s)))
| reach_transport (ev : ws_event) (s : State) :
    reachable s -> socket s <> None -> reachable (snd (fst (handler ev s))).

(** The outbound event of the specification, and its JSON text. *)
Definition message_event (content : jsstring) : value :=
  VObj [(js "type", VStr (js "message")); (js "content", VStr content)].

Definition message_frame (content : jsstring) : jsstring :=
  jq "{'type':'message','content':'" ++ JSON.quote_body content ++ jq "'}".

(** *** Frames and states of the specification's scenarios *)

(** No endpoint configured; the directory knows nobody and creates whoever
    asks; every address is accepted. *)
Definition fresh_directory : Env :=
  mkEnv None (fun _ => Throw (AxiosError (Some 404))) (fun _ _ => Normal tt)
        (fun _ => false).

(** The directory knows everybody. *)
Definition full_directory : Env :=
  mkEnv None (fun _ => Normal tt) (fun _ _ => Normal tt) (fun _ => false).

(** The directory knows nobody and its create fails. *)
Definition broken_create : Env :=
  mkEnv None (fun _ => Throw (AxiosError (Some 404)))
        (fun _ _ => Throw (AxiosError (Some 500))) (fun _ => false).

(** The directory does not answer. *)
Definition unreachable_directory : Env :=
  mkEnv None (fun _ => Throw (AxiosError None)) (fun _ _ => Normal tt)
        (fun _ => false).

(** The join form with a name typed in. *)
Definition typed (name : jsstring) : State :=
  mkState name false (VArr []) [] None false.

(** The address [connectWebSocket] opens. *)
Definition socket_address (env : Env) (name : jsstring) : jsstring :=
  (if startsWith (js "https") (API_URL env) then js "wss" else js "ws")
    ++ js "://" ++ WS_URL env ++ js "/ws/" ++ name.

Definition with_inputMessage (s : State) (v : jsstring) : State :=
  mkState (username s) (isJoined s) (messages s) v (socket s) (isConnected s).

Definition history_empty : jsstring := jq "{'type':'history','messages':[]}".

Definition bob_says_hi : jsstring :=
  jq "{'type':'new_message','message':{'id':1,'username':'bob','content':'hi','timestamp':'2024-01-01T00:00:00Z'}}".

Definition bob_message : value :=
  VObj [(js "id", VNum (js "1")); (js "username", VStr (js "bob"));
        (js "content", VStr (js "hi"));
        (js "timestamp", VStr (js "2024-01-01T00:00:00Z"))].

Definition bob_joined : jsstring := jq "{'type':'user_joined','username':'bob'}".
Definition bob_left : jsstring := jq "{'type':'user_left','username':'bob'}".
Definition not_json : jsstring := js "not json".
Definition unknown_tag : jsstring := jq "{'type':'unknown'}".
Definition history_without_payload : jsstring := jq "{'type':'history'}".
Definition new_message_without_payload : jsstring := jq "{'type':'new_message'}".
Definition history_of_bob : jsstring :=
  jq "{'type':'history','messages':[{'id':1,'username':'bob','content':'hi','timestamp':'2024-01-01T00:00:00Z'}]}".

(** A session that has joined as alice over an open socket. *)
Definition alice_online (input : jsstring) : State :=
  mkState (js "alice") true (VArr [bob_message]) input
          (Some (mkWebSocket (js "ws://localhost:8000/ws/alice"))) true.

(** The same session before [onopen], and after [onclose]. *)
Definition alice_offline (input : jsstring) : State :=
  mkState (js "alice") true (VArr [bob_message]) input
          (Some (mkWebSocket (js "ws://localhost:8000/ws/alice"))) false.

(* ------------------------------------------------------------------ *)
(** ** Properties of the frame handler *)

(** *** The view, where it decides what the user can do

    [App] returns the join form while [isJoined] is false; in the chat view
    the message input has [disabled={!isConnected}] and the Send button
    [disabled={!isConnected || !inputMessage.trim()}]. *)
Definition shows_join_form (s : State) : bool := negb (isJoined s).

Definition chat_input_disabled (s : State) : bool := negb (isConnected s).

Definition send_button_disabled (s : State) : bool :=
  negb (isConnected s) || negb (truthy (trim (inputMessage s))).

(** *** Words for the properties below *)

(** The property [field] of a frame, as the handler reads it; [undefined]
    where there is nothing to read. *)
Definition payload (raw field : jsstring) : value :=
  match JSON.parse raw with
  | Normal data =>
      match get data field with
      | Normal v => v
      | Throw _ => VUndefined
      end
  | Throw _ => VUndefined
  end.

Definition is_array (v : value) : bool :=
  match v with
  | VArr _ => true
  | _ => false
  end.

(** A string that is not empty and has no white space at either end. *)
Definition trimmed_name (n : jsstring) : bool :=
  match hd_error n, hd_error (rev n) with
  | Some c, Some d => negb (is_whitespace c) && negb (is_whitespace d)
  | _, _ => false
  end.

(** A request of [joinChat] is about the name [n]: the lookup of
    [/users/n], or the create with [username = n]. *)
Definition request_about (n : jsstring) (e : effect) : Prop :=
  match e with
  | AxiosGet url => url = js "/users/" ++ n
  | AxiosPost url params => url = js "/users" /\ params = [(js "username", n)]
  | _ => True
  end.

(** A Message record whose [id], when there is one, is a number, a string,
    a boolean or [null].  The message list reads [id] for the key,
    [username] and [content] as text, and [timestamp] for [new Date]; with
    strings for the texts and no object for the key or the date, none of
    these reads or conversions throws, so a log of such records is one the
    view renders. *)
Definition is_plain_message (v : value) : bool :=
  is_message v &&
  match v with
  | VObj ps =>
      match own_property (js "id") ps with
      | None | Some (VNull | VBool _ | VNum _ | VStr _) => true
      | Some _ => false
      end
  | _ => false
  end.

Definition is_plain_log (v : value) : bool :=
  match v with
  | VArr l => forallb is_plain_message l
  | _ => false
  end.

(** An effect that is a line on the console. *)
Definition console_only (e : effect) : bool :=
  match e with
  | ConsoleLog _ | ConsoleLogPresence _ _ | ConsoleError _ _ => true
  | _ => false
  end.

(** The line a presence frame writes after the name. *)
Definition presence_text (raw : jsstring) : jsstring :=
  if tag_is raw (js "user_joined") then js " joined the chat"
  else js " left the chat".

Definition count_sockets (t : list effect) : nat :=
  List.length (filter (fun e => match e with NewWebSocket _ => true | _ => false end) t).

(** The last open or close event of a sequence, if there is one: [true]
    for open. *)
Fixpoint last_open_or_close (evs : list ws_event) : option bool :=
  match evs with
  | [] => None
  | ev :: evs' =>
      match last_open_or_close evs' with
      | Some b => Some b
      | None =>
          match ev with
          | Open => Some true
          | Close => Some false
          | _ => None
          end
      end
  end.

(** The state with [isJoined] set, and with a socket on top of that. *)
Definition joined (s : State) : State :=
  mkState (username s) true (messages s) (inputMessage s) (socket s) (isConnected s).

Definition joined_with (s : State) (ws : WebSocket) : State :=
  mkState (username s) true (messages s) (inputMessage s) (Some ws) (isConnected s).

(** An environment with the endpoint [url] configured. *)
Definition configured (url : jsstring) (env : Env) : Env :=
  mkEnv (Some url) (directory_get env) (directory_post env) (websocket_refuses env).

(** The directory knows everybody and the constructor refuses every
    address. *)
Definition refusing_sockets : Env :=
  mkEnv None (fun _ => Normal tt) (fun _ _ => Normal tt) (fun _ => true).

(** The directory knows everybody and the endpoint is [https://chat.example/]. *)
Definition secure_directory : Env :=
  mkEnv (Some (js "https://chat.example/")) (fun _ => Normal tt)
        (fun _ _ => Normal tt) (fun _ => false).

(** The directory knows nobody, creates whoever asks, and the constructor
    refuses every address. *)
Definition fresh_refusing : Env :=
  mkEnv None (fun _ => Throw (AxiosError (Some 404))) (fun _ _ => Normal tt)
        (fun _ => true).

Definition null_frame : jsstring := js "null".
Definition number_frame : jsstring := js "42".
Definition nameless_presence : jsstring := jq "{'type':'user_joined'}".
Definition unprintable_presence : jsstring :=
  jq "{'type':'user_left','username':{'toString':1}}".
Definition history_of_text : jsstring := jq "{'type':'history','messages':'oops'}".

Arguments JSON.parse : simpl never.
Arguments js : simpl never.
Arguments get : simpl never.
Arguments spread : simpl never.
Arguments strict_equals : simpl never.
Arguments ToString_throws : simpl never.

(** The handler is unfolded and its tests are taken by cases, outermost
    first. *)
Ltac case_step :=
  match goal with
  | |- context [match ?x with Normal _ => _ | Throw _ => _ end] =>
      destruct x eqn:?
  | |- context [if ?b then _ else _] => destruct b eqn:?
  end.

Ltac unfold_onmessage :=
  unfold ws_onmessage, setMessages_updater, log_presence, bind, lift, read,
    setMessages, emit, throw, ret; cbn.

Ltac run_onmessage := unfold_onmessage; repeat (case_step; cbn).

Section FrameHandler.

(** [ws.onmessage] touches no cell but [messages]. *)
Lemma onmessage_frame (raw : jsstring) (s : State) :
  snd (fst (ws_onmessage raw s)) =
  with_messages s (messages (snd (fst (ws_onmessage raw s)))).
Proof.
  destruct s as [u j m i k c]. run_onmessage; reflexivity.
Qed.

(** Its outcome, its effects and the log it leaves are a function of the
    frame and of the log it found. *)
Lemma onmessage_reads_only_log (raw : jsstring) (s1 s2 : State) :
  messages s1 = messages s2 ->
  fst (fst (ws_onmessage raw s1)) = fst (fst (ws_onmessage raw s2)) /\
  messages (snd (fst (ws_onmessage raw s1))) =
    messages (snd (fst (ws_onmessage raw s2))) /\
  snd (ws_onmessage raw s1) = snd (ws_onmessage raw s2).
Proof.
  destruct s1 as [u1 j1 m1 i1 k1 c1], s2 as [u2 j2 m2 i2 k2 c2]; simpl.
  intros ->. run_onmessage; auto.
Qed.

Lemma with_messages_same (s : State) : with_messages s (messages s) = s.
Proof. destruct s; reflexivity. Qed.

(** A frame that does not parse: the exception of [JSON.parse] leaves the
    handler, before any write. *)
Lemma onmessage_not_json (raw : jsstring) (e : exn) (s : State) :
  JSON.parse raw = Throw e ->
  ws_onmessage raw s = (Throw e, s, []).
Proof. intros H. unfold_onmessage. rewrite H. reflexivity. Qed.

Lemma eqb_eq (a b : jsstring) : eqb a b = true <-> a = b.
Proof.
  revert b; induction a as [|x a IH]; intros [|y b]; simpl;
    try (split; [discriminate | discriminate]); [tauto|].
  rewrite andb_true_iff, N.eqb_eq, IH. split.
  - intros [-> ->]; reflexivity.
  - intros H; injection H; auto.
Qed.

(** A value that has a [type] to read has every other property to read:
    only [null] and [undefined] throw. *)
Lemma get_after_get (data : value) (k k' : jsstring) (t : value) :
  get data k = Normal t -> exists v, get data k' = Normal v.
Proof.
  unfold get. destruct data; try discriminate; intros _; eauto.
  destruct (own_property k' props); eauto.
Qed.

(** Comparisons of a literal tag with a literal tag are computed. *)
Ltac tags :=
  repeat match goal with
         | |- context [strict_equals (VStr (js ?a)) (js ?b)] =>
             let r := eval vm_compute in (strict_equals (VStr (js a)) (js b)) in
             change (strict_equals (VStr (js a)) (js b)) with r
         end; cbn.

(** The [history] case: the log becomes the [messages] property, whatever
    it is. *)
Lemma onmessage_history (raw : jsstring) (data : value) (s : State) :
  JSON.parse raw = Normal data ->
  get data (js "type") = Normal (VStr (js "history")) ->
  exists payload,
    get data (js "messages") = Normal payload /\
    ws_onmessage raw s = (Normal tt, with_messages s payload, []).
Proof.
  intros Hp Ht.
  destruct (get_after_get data _ (js "messages") _ Ht) as [payload Hm].
  exists payload; split; [exact Hm|].
  unfold_onmessage. rewrite Hp; cbn. rewrite Ht; cbn. tags.
  rewrite Hm; reflexivity.
Qed.

(** The [new_message] case on a log that can be spread: an array, or a
    string. *)
Lemma onmessage_new_message (raw : jsstring) (data : value) (s : State)
    (l : list value) :
  JSON.parse raw = Normal data ->
  get data (js "type") = Normal (VStr (js "new_message")) ->
  spread (messages s) = Normal l ->
  exists payload,
    get data (js "message") = Normal payload /\
    ws_onmessage raw s = (Normal tt, with_messages s (VArr (l ++ [payload])), []).
Proof.
  intros Hp Ht Hl.
  destruct (get_after_get data _ (js "message") _ Ht) as [payload Hm].
  exists payload; split; [exact Hm|].
  unfold_onmessage. rewrite Hp; cbn. rewrite Ht; cbn. tags.
  rewrite Hl; cbn. rewrite Hm; reflexivity.
Qed.

(** An object whose tag is none of the four: the [default] case. *)
Lemma onmessage_unrecognized (raw : jsstring) (data t : value) (s : State) :
  JSON.parse raw = Normal data ->
  get data (js "type") = Normal t ->
  recognized t = false ->
  ws_onmessage raw s = (Normal tt, s, []).
Proof.
  intros Hp Ht Hr. unfold recognized in Hr.
  apply orb_false_iff in Hr as [Hr H4].
  apply orb_false_iff in Hr as [Hr H3].
  apply orb_false_iff in Hr as [H1 H2].
  unfold_onmessage. rewrite Hp; cbn. rewrite Ht; cbn.
  rewrite H1; cbn. rewrite H2; cbn. rewrite H3; cbn. rewrite H4; cbn.
  reflexivity.
Qed.

(** The presence cases with a string for a name: one line on the console. *)
Lemma onmessage_presence (raw : jsstring) (data : value) (who : jsstring)
    (s : State) :
  JSON.parse raw = Normal data ->
  get data (js "username") = Normal (VStr who) ->
  (get data (js "type") = Normal (VStr (js "user_joined")) ->
   ws_onmessage raw s =
     (Normal tt, s, [ConsoleLogPresence (VStr who) (js " joined the chat")])) /\
  (get data (js "type") = Normal (VStr (js "user_left")) ->
   ws_onmessage raw s =
     (Normal tt, s, [ConsoleLogPresence (VStr who) (js " left the chat")])).
Proof.
  intros Hp Hu; split; intros Ht; unfold_onmessage; rewrite Hp; cbn;
    rewrite Ht; cbn; tags; rewrite Hu; cbn; reflexivity.
Qed.

(** *** Sequences of frames *)

Lemma deliver_message_normal (w : World) (raw : jsstring) (s' : State)
    (t : list effect) :
  ws_onmessage raw (state w) = (Normal tt, s', t) ->
  deliver w (Message raw) = mkWorld s' (trace w ++ t) (uncaught w).
Proof. unfold deliver; simpl. intros ->. reflexivity. Qed.

Lemma deliver_message_throw (w : World) (raw : jsstring) (e : exn) :
  JSON.parse raw = Throw e ->
  deliver w (Message raw) = mkWorld (state w) (trace w) (uncaught w ++ [e]).
Proof.
  intros H. unfold deliver; simpl. rewrite (onmessage_not_json _ _ _ H).
  rewrite app_nil_r. reflexivity.
Qed.

(** What a well-formed frame does to a log that is an array: the
    expectation for that one frame. *)
Lemma onmessage_well_formed (raw : jsstring) (f : frame) (s : State)
    (l : list value) :
  well_formed raw = Some f ->
  messages s = VArr l ->
  exists t,
    ws_onmessage raw s =
      (Normal tt, with_messages s (VArr (expected_log l [f])), t).
Proof.
  unfold well_formed. destruct (JSON.parse raw) as [data|] eqn:Hp; [|discriminate].
  destruct data as [| | | | |?|ps]; try discriminate. unfold decode.
  destruct (own_property (js "type") ps) as [[| | | |t| |]|] eqn:Ht; try discriminate.
  assert (Hget : get (VObj ps) (js "type") = Normal (VStr t))
    by (unfold get; rewrite Ht; reflexivity).
  destruct (eqb t (js "history")) eqn:E1.
  { apply eqb_eq in E1; subst t.
    destruct (own_property (js "messages") ps) as [[| | | | |h|]|] eqn:Hm;
      try discriminate.
    destruct (forallb is_message h); [|discriminate].
    intros [= <-] Hl.
    destruct (onmessage_history raw _ s Hp Hget) as (payload & Hpay & Hrun).
    unfold get in Hpay; rewrite Hm in Hpay. injection Hpay as <-.
    exists []. rewrite Hrun. unfold expected_log; cbn. rewrite app_nil_r.
    reflexivity. }
  destruct (eqb t (js "new_message")) eqn:E2.
  { apply eqb_eq in E2; subst t.
    destruct (own_property (js "message") ps) as [m|] eqn:Hm; [|discriminate].
    destruct (is_message m); [|discriminate].
    intros [= <-] Hl.
    assert (Hsp : spread (messages s) = Normal l) by (rewrite Hl; reflexivity).
    destruct (onmessage_new_message raw _ s l Hp Hget Hsp) as (payload & Hpay & Hrun).
    unfold get in Hpay; rewrite Hm in Hpay. injection Hpay as <-.
    exists []. rewrite Hrun. reflexivity. }
  destruct (eqb t (js "user_joined")) eqn:E3.
  { apply eqb_eq in E3; subst t.
    destruct (own_property (js "username") ps) as [[| | | |u| |]|] eqn:Hu;
      try discriminate.
    intros [= <-] Hl.
    assert (Hgu : get (VObj ps) (js "username") = Normal (VStr u))
      by (unfold get; rewrite Hu; reflexivity).
    destruct (onmessage_presence raw _ u s Hp Hgu) as [Hj _].
    eexists. rewrite (Hj Hget). unfold expected_log; cbn.
    rewrite app_nil_r, <- Hl, with_messages_same. reflexivity. }
  destruct (eqb t (js "user_left")) eqn:E4; [|discriminate].
  apply eqb_eq in E4; subst t.
  destruct (own_property (js "username") ps) as [[| | | |u| |]|] eqn:Hu;
    try discriminate.
  intros [= <-] Hl.
  assert (Hgu : get (VObj ps) (js "username") = Normal (VStr u))
    by (unfold get; rewrite Hu; reflexivity).
  destruct (onmessage_presence raw _ u s Hp Hgu) as [_ Hj].
  eexists. rewrite (Hj Hget). unfold expected_log; cbn.
  rewrite app_nil_r, <- Hl, with_messages_same. reflexivity.
Qed.

(** The expectation, one frame at a time from the left. *)
Lemma expected_log_cons (l : list value) (f : frame) (fs : list frame) :
  expected_log l (f :: fs) = expected_log (expected_log l [f]) fs.
Proof.
  unfold expected_log; cbn.
  destruct (since_last_history fs) as [[h|] after]; [destruct f; reflexivity|].
  destruct f; cbn; rewrite ?app_nil_r, <- ?app_assoc; reflexivity.
Qed.

Lemma deliver_all_well_formed (raws : list jsstring) (fs : list frame) :
  Forall2 (fun raw f => well_formed raw = Some f) raws fs ->
  forall (w : World) (l : list value),
    messages (state w) = VArr l ->
    log (deliver_all (map Message raws) w) = VArr (expected_log l fs) /\
    uncaught (deliver_all (map Message raws) w) = uncaught w.
Proof.
  induction 1 as [|raw f raws fs Hwf _ IH]; intros w l Hl.
  - cbn. unfold log, expected_log; cbn. rewrite app_nil_r. auto.
  - cbn [map deliver_all fold_left].
    destruct (onmessage_well_formed raw f (state w) l Hwf Hl) as [t Hrun].
    rewrite (deliver_message_normal _ _ _ _ Hrun).
    rewrite (expected_log_cons l f fs).
    apply (IH (mkWorld _ _ _)). reflexivity.
Qed.

(** The state after a sequence of events does not depend on the
    exceptions reported before it. *)
Lemma deliver_all_state (evs : list ws_event) (w1 w2 : World) :
  state w1 = state w2 ->
  state (deliver_all evs w1) = state (deliver_all evs w2).
Proof.
  revert w1 w2; induction evs as [|ev evs IH]; intros w1 w2 H; [exact H|].
  cbn. apply IH. unfold deliver. rewrite H.
  destruct (handler ev (state w2)) as [[[]]]; reflexivity.
Qed.

Lemma tag_is_inv (raw tag : jsstring) :
  tag_is raw tag = true ->
  exists data, JSON.parse raw = Normal data /\
               get data (js "type") = Normal (VStr tag).
Proof.
  unfold tag_is. destruct (JSON.parse raw) as [data|]; [|discriminate].
  destruct (get data (js "type")) as [t|] eqn:Ht; [|discriminate].
  unfold strict_equals. destruct t; try discriminate.
  intros H; apply eqb_eq in H; subst. eauto.
Qed.

Lemma not_message_log_snoc (l : list value) :
  is_message_log (VArr (l ++ [VUndefined])) = false.
Proof.
  unfold is_message_log. rewrite forallb_app. cbn. apply andb_false_r.
Qed.

(** A well-formed presence frame writes one console line and nothing
    else. *)
Lemma onmessage_presence_well_formed (raw who : jsstring) (s' : State) :
  well_formed raw = Some (UserJoined who) \/
  well_formed raw = Some (UserLeft who) ->
  exists t, ws_onmessage raw s' = (Normal tt, s', t).
Proof.
  intros Hraw.
  unfold well_formed in Hraw.
  destruct (JSON.parse raw) as [data|] eqn:Hp; [|destruct Hraw; discriminate].
  destruct data as [| | | | |?|ps]; try (destruct Hraw; discriminate).
  unfold decode in Hraw.
  destruct (own_property (js "type") ps) as [[| | | |t| |]|] eqn:Ht;
    try (destruct Hraw; discriminate).
  assert (Hget : get (VObj ps) (js "type") = Normal (VStr t))
    by (unfold get; rewrite Ht; reflexivity).
  destruct (eqb t (js "history")) eqn:E1.
  { destruct (own_property (js "messages") ps) as [[| | | | |h|]|];
      try (destruct Hraw; discriminate).
    destruct (forallb is_message h); destruct Hraw; discriminate. }
  destruct (eqb t (js "new_message")) eqn:E2.
  { destruct (own_property (js "message") ps) as [m|];
      try (destruct Hraw; discriminate).
    destruct (is_message m); destruct Hraw; discriminate. }
  destruct (eqb t (js "user_joined")) eqn:E3.
  { apply eqb_eq in E3; subst t.
    destruct (own_property (js "username") ps) as [[| | | |u| |]|] eqn:Hu;
      try (destruct Hraw; discriminate).
    assert (Hgu : get (VObj ps) (js "username") = Normal (VStr u))
      by (unfold get; rewrite Hu; reflexivity).
    destruct (onmessage_presence raw _ u s' Hp Hgu) as [Hj _].
    eexists; exact (Hj Hget). }
  destruct (eqb t (js "user_left")) eqn:E4; [|destruct Hraw; discriminate].
  apply eqb_eq in E4; subst t.
  destruct (own_property (js "username") ps) as [[| | | |u| |]|] eqn:Hu;
    try (destruct Hraw; discriminate).
  assert (Hgu : get (VObj ps) (js "username") = Normal (VStr u))
    by (unfold get; rewrite Hu; reflexivity).
  destruct (onmessage_presence raw _ u s' Hp Hgu) as [_ Hj].
  eexists; exact (Hj Hget).
Qed.


(** *** The claims on the frame handler *)

(** C1.  For every sequence of well-formed inbound frames the message log
    is the payload of the last [history] frame, in its order, followed by
    the payload of every [new_message] frame that arrived after it, in
    arrival order (before any [history] frame the base is the log the
    sequence started from, the empty array of [useState([])]); no frame of
    the sequence throws; and a [user_joined] or [user_left] frame leaves
    the log as it was, whatever the log is. *)
Theorem C1_log_after_well_formed_frames
    (s : State) (before : list value) (raws : list jsstring)
    (fs : list frame) :
  messages s = VArr before ->
  Forall2 (fun raw f => well_formed raw = Some f) raws fs ->
  log (process_frames raws s) = VArr (expected_log before fs) /\
  uncaught (process_frames raws s) = [] /\
  (forall (s' : State) (raw who : jsstring),
      well_formed raw = Some (UserJoined who) \/
      well_formed raw = Some (UserLeft who) ->
      log (process_frames [raw] s') = messages s').
Proof.
  intros Hl Hwf.
  destruct (deliver_all_well_formed raws fs Hwf (start s) before Hl) as [H1 H2].
  repeat split; [exact H1 | exact H2 |].
  intros s' raw who Hraw.
  destruct (onmessage_presence_well_formed raw who s' Hraw) as [t Hrun].
  unfold process_frames, deliver_all, log; cbn [map fold_left].
  rewrite (deliver_message_normal (start s') raw s' t Hrun). reflexivity.
Qed.

(** The scenario of the specification: an empty history, a presence
    notice, then bob's message. *)
Lemma C1_scenario :
  messages initial = VArr [] /\
  Forall2 (fun raw f => well_formed raw = Some f)
    [history_empty; bob_joined; bob_says_hi]
    [History []; UserJoined (js "bob"); NewMessage bob_message] /\
  log (process_frames [history_empty; bob_joined; bob_says_hi] initial) =
    VArr [bob_message] /\
  log (process_frames [bob_left] (alice_online [])) = VArr [bob_message].
Proof.
  assert (H0 : messages initial = VArr []) by reflexivity.
  assert (H1 : Forall2 (fun raw f => well_formed raw = Some f)
                 [history_empty; bob_joined; bob_says_hi]
                 [History []; UserJoined (js "bob"); NewMessage bob_message])
    by (repeat constructor).
  destruct (C1_log_after_well_formed_frames initial [] _ _ H0 H1)
    as (Hlog & _ & Hpresence).
  split; [exact H0 | split; [exact H1 | split; [exact Hlog|]]].
  apply (Hpresence (alice_online []) bob_left (js "bob")).
  right; reflexivity.
Defined.

(** C2, as amended.  A malformed frame leaves the whole state, the log
    with it, as it was, and the events after it are processed as if it had
    not come.  A JSON object with an unrecognized tag raises no exception;
    text that is not JSON makes [JSON.parse] throw, and that exception
    leaves the handler, which has no [try]. *)
Theorem C2_malformed_frame_is_dropped (raw : jsstring) (w : World) :
  malformed raw = true ->
  state (deliver w (Message raw)) = state w /\
  trace (deliver w (Message raw)) = trace w /\
  (forall evs : list ws_event,
      state (deliver_all (Message raw :: evs) w) = state (deliver_all evs w)) /\
  match JSON.parse raw with
  | Normal _ =>
      fst (fst (ws_onmessage raw (state w))) = Normal tt /\
      uncaught (deliver w (Message raw)) = uncaught w
  | Throw e =>
      fst (fst (ws_onmessage raw (state w))) = Throw e /\
      uncaught (deliver w (Message raw)) = uncaught w ++ [e]
  end.
Proof.
  intros Hm.
  assert (Hrun : ws_onmessage raw (state w) =
                 (match JSON.parse raw with
                  | Normal _ => Normal tt
                  | Throw e => Throw e
                  end, state w, [])).
  { unfold malformed in Hm.
    destruct (JSON.parse raw) as [data|e] eqn:Hp;
      [|apply (onmessage_not_json _ _ _ Hp)].
    destruct data as [| | | | |?|ps]; try discriminate.
    destruct (own_property (js "type") ps) as [t|] eqn:Ht.
    - apply (onmessage_unrecognized raw (VObj ps) t); auto.
      + unfold get; rewrite Ht; reflexivity.
      + apply negb_true_iff; exact Hm.
    - apply (onmessage_unrecognized raw (VObj ps) VUndefined); auto.
      unfold get; rewrite Ht; reflexivity. }
  assert (Hst : state (deliver w (Message raw)) = state w).
  { unfold deliver; cbn [handler]; rewrite Hrun. destruct (JSON.parse raw); reflexivity. }
  split; [exact Hst|]. split.
  { unfold deliver; cbn [handler]; rewrite Hrun.
    destruct (JSON.parse raw); cbn; apply app_nil_r. }
  split.
  { intros evs. cbn. apply deliver_all_state. exact Hst. }
  unfold deliver; cbn [handler]; rewrite Hrun.
  destruct (JSON.parse raw); cbn; auto.
Qed.

Lemma C2_unknown_tag_dropped :
  malformed unknown_tag = true /\
  state (deliver (start (alice_online [])) (Message unknown_tag)) =
    alice_online [] /\
  state (deliver_all [Message unknown_tag; Message bob_says_hi]
                     (start (alice_online []))) =
    state (deliver_all [Message bob_says_hi] (start (alice_online []))).
Proof.
  assert (H : malformed unknown_tag = true) by reflexivity.
  destruct (C2_malformed_frame_is_dropped unknown_tag
              (start (alice_online [])) H) as (Hs & _ & Hnext & _).
  split; [exact H | split; [exact Hs | exact (Hnext [Message bob_says_hi])]].
Defined.

(** The claim as written fails on text that is not JSON: the handler
    throws, and the browser reports the exception. *)
Lemma C2_not_json_throws :
  malformed not_json = true /\
  ws_onmessage not_json initial = (Throw SyntaxError, initial, []) /\
  uncaught (process_frames [not_json] initial) = [SyntaxError].
Proof. repeat split. Qed.

(** C8.  A [history] frame replaces the log wholesale: the log it leaves
    is the same from every state, so processing the frame twice in a row
    leaves what processing it once leaves, and neither raises. *)
Theorem C8_history_is_idempotent (raw : jsstring) (w : World) :
  tag_is raw (js "history") = true ->
  state (deliver (deliver w (Message raw)) (Message raw)) =
    state (deliver w (Message raw)) /\
  uncaught (deliver (deliver w (Message raw)) (Message raw)) = uncaught w /\
  (forall w' : World,
      log (deliver w' (Message raw)) = log (deliver w (Message raw))).
Proof.
  intros Htag. destruct (tag_is_inv _ _ Htag) as (data & Hp & Ht).
  assert (Hone : forall v : World, exists payload,
             get data (js "messages") = Normal payload /\
             deliver v (Message raw) =
               mkWorld (with_messages (state v) payload) (trace v ++ [])
                       (uncaught v)).
  { intros v.
    destruct (onmessage_history raw data (state v) Hp Ht) as (payload & Hm & Hrun).
    exists payload; split; [exact Hm|].
    apply deliver_message_normal; exact Hrun. }
  destruct (Hone w) as (p1 & Hm1 & H1).
  destruct (Hone (deliver w (Message raw))) as (p2 & Hm2 & H2).
  rewrite Hm1 in Hm2; injection Hm2 as <-.
  rewrite H2, H1; cbn. repeat split.
  intros w'. destruct (Hone w') as (p3 & Hm3 & H3).
  rewrite Hm1 in Hm3; injection Hm3 as <-. rewrite H3. reflexivity.
Qed.

Lemma C8_history_twice :
  tag_is history_of_bob (js "history") = true /\
  log (deliver (deliver (start (alice_online [])) (Message history_of_bob))
               (Message history_of_bob)) = VArr [bob_message].
Proof.
  assert (H : tag_is history_of_bob (js "history") = true) by reflexivity.
  destruct (C8_history_is_idempotent history_of_bob
              (start (alice_online [])) H) as (Hs & _ & _).
  split; [exact H|]. unfold log. rewrite Hs. reflexivity.
Defined.

(** The [new_message] case on a log that cannot be spread: nothing is
    written and nothing leaves the handler. *)
Lemma onmessage_new_message_lost (raw : jsstring) (data : value) (s : State)
    (e : exn) :
  JSON.parse raw = Normal data ->
  get data (js "type") = Normal (VStr (js "new_message")) ->
  spread (messages s) = Throw e ->
  ws_onmessage raw s = (Normal tt, s, []).
Proof.
  intros Hp Ht Hs.
  unfold_onmessage. rewrite Hp; cbn. rewrite Ht; cbn. tags.
  rewrite Hs; cbn. reflexivity.
Qed.

(** C9, as amended.  The handler does not look at the payload.  A
    [history] frame without [messages] replaces the log by [undefined],
    whatever the log was.  A [new_message] frame without [message] appends
    [undefined] at the end of a log that is an array, and changes nothing
    when the log is [undefined].  Neither of the two results is a sequence
    of Message records. *)
Theorem C9_no_payload_validation (raw : jsstring) (s : State) :
  (tag_is raw (js "history") = true ->
   payload_absent raw (js "messages") = true ->
   ws_onmessage raw s = (Normal tt, with_messages s VUndefined, []) /\
   is_message_log VUndefined = false) /\
  (tag_is raw (js "new_message") = true ->
   payload_absent raw (js "message") = true ->
   (forall l : list value,
       messages s = VArr l ->
       ws_onmessage raw s =
         (Normal tt, with_messages s (VArr (l ++ [VUndefined])), []) /\
       is_message_log (VArr (l ++ [VUndefined])) = false) /\
   (messages s = VUndefined -> ws_onmessage raw s = (Normal tt, s, []))).
Proof.
  split; intros Htag Habs; destruct (tag_is_inv _ _ Htag) as (data & Hp & Ht);
    unfold payload_absent in Habs; rewrite Hp in Habs;
    destruct data as [| | | | |?|ps]; try discriminate.
  - destruct (own_property (js "messages") ps) eqn:Hm; [discriminate|].
    destruct (onmessage_history raw _ s Hp Ht) as (payload & Hpay & Hrun).
    unfold get in Hpay; rewrite Hm in Hpay; injection Hpay as <-.
    split; [exact Hrun | reflexivity].
  - destruct (own_property (js "message") ps) eqn:Hm; [discriminate|].
    split.
    + intros l Hl.
      assert (Hsp : spread (messages s) = Normal l) by (rewrite Hl; reflexivity).
      destruct (onmessage_new_message raw _ s l Hp Ht Hsp)
        as (payload & Hpay & Hrun).
      unfold get in Hpay; rewrite Hm in Hpay; injection Hpay as <-.
      split; [exact Hrun | apply not_message_log_snoc].
    + intros Hu.
      apply (onmessage_new_message_lost raw _ s TypeError Hp Ht).
      rewrite Hu. reflexivity.
Qed.

(** On a log that holds bob's message: the first frame replaces it, the
    second appends to it. *)
Lemma C9_missing_payloads :
  ws_onmessage history_without_payload (alice_online []) =
    (Normal tt, with_messages (alice_online []) VUndefined, []) /\
  ws_onmessage new_message_without_payload (alice_online []) =
    (Normal tt, with_messages (alice_online []) (VArr [bob_message; VUndefined]),
     []).
Proof.
  split.
  - apply (proj1 (C9_no_payload_validation history_without_payload
                    (alice_online [])));
      reflexivity.
  - apply (proj1 (proj2 (C9_no_payload_validation new_message_without_payload
                           (alice_online [])) eq_refl eq_refl) [bob_message]).
    reflexivity.
Defined.

(** The claim as written fails on the log that its own [history] case
    leaves: after a [history] frame without [messages] the log is
    [undefined], and a [new_message] frame without [message] does not append
    to it, nor change it in any way. *)
Lemma C9_undefined_log_is_not_appended_to :
  tag_is new_message_without_payload (js "new_message") = true /\
  payload_absent new_message_without_payload (js "message") = true /\
  log (process_frames [history_without_payload] initial) = VUndefined /\
  log (process_frames [history_without_payload; new_message_without_payload]
                      initial) = VUndefined /\
  ws_onmessage new_message_without_payload (with_messages initial VUndefined) =
    (Normal tt, with_messages initial VUndefined, []).
Proof. repeat split. Qed.

Lemma deliver_all_reads_only_log (frames : list jsstring) (w1 w2 : World) :
  messages (state w1) = messages (state w2) ->
  trace w1 = trace w2 ->
  uncaught w1 = uncaught w2 ->
  log (deliver_all (map Message frames) w1) =
    log (deliver_all (map Message frames) w2) /\
  trace (deliver_all (map Message frames) w1) =
    trace (deliver_all (map Message frames) w2) /\
  uncaught (deliver_all (map Message frames) w1) =
    uncaught (deliver_all (map Message frames) w2).
Proof.
  revert w1 w2; induction frames as [|raw frames IH]; intros w1 w2 Hm Ht Hu;
    [cbn; auto|].
  cbn [map deliver_all fold_left]. apply IH; unfold deliver; cbn [handler];
    destruct (onmessage_reads_only_log raw _ _ Hm) as (Hr & Hl & He);
    destruct (ws_onmessage raw (state w1)) as [[r1 s1] t1];
    destruct (ws_onmessage raw (state w2)) as [[r2 s2] t2];
    cbn in Hr, Hl, He; subst r2 t2;
    destruct r1; cbn; congruence.
Qed.

(** C10.  The log after a sequence of frames is a function of the log
    before it and of the frames: two runs that start from states with the
    same log, whatever their other cells hold, end with the same log, and
    with the same console lines and the same exceptions. *)
Theorem C10_frame_processing_is_deterministic
    (frames : list jsstring) (s1 s2 : State) :
  messages s1 = messages s2 ->
  log (process_frames frames s1) = log (process_frames frames s2) /\
  trace (process_frames frames s1) = trace (process_frames frames s2) /\
  uncaught (process_frames frames s1) = uncaught (process_frames frames s2).
Proof.
  intros H. apply deliver_all_reads_only_log; auto.
Qed.

Lemma C10_two_sessions :
  messages (alice_online (js "draft")) = messages (alice_offline []) /\
  log (process_frames [bob_says_hi; not_json; history_empty; bob_says_hi]
                      (alice_online (js "draft"))) =
  log (process_frames [bob_says_hi; not_json; history_empty; bob_says_hi]
                      (alice_offline [])).
Proof.
  split; [reflexivity|].
  apply (C10_frame_processing_is_deterministic
           [bob_says_hi; not_json; history_empty; bob_says_hi]
           (alice_online (js "draft")) (alice_offline [])).
  reflexivity.
Defined.

End FrameHandler.

(* ------------------------------------------------------------------ *)
(** ** The outbound frame: [JSON.parse] reads back what [JSON.stringify]
    writes for [{type: 'message', content}] *)

Section OutboundFrame.

Import JSON.

Lemma hex_digit_hex_char (d : N) :
  d < 16 -> hex_digit (hex_char d) = Some d.
Proof.
  intros H. unfold hex_char, hex_digit, is_digit.
  destruct (N.ltb_spec d 10).
  - replace ((48 <=? 48 + d) && (48 + d <=? 57)) with true.
    + f_equal; lia.
    + symmetry; apply andb_true_iff; split; apply N.leb_le; lia.
  - replace ((48 <=? 87 + d) && (87 + d <=? 57)) with false.
    + replace ((97 <=? 87 + d) && (87 + d <=? 102)) with true.
      * f_equal; lia.
      * symmetry; apply andb_true_iff; split; apply N.leb_le; lia.
    + symmetry; apply andb_false_iff; right; apply N.leb_gt; lia.
Qed.

Lemma hex_digits_value (c : N) :
  c < 65536 ->
  (((0 * 16 + c / 4096 mod 16) * 16 + c / 256 mod 16) * 16 + c / 16 mod 16) * 16
    + c mod 16 = c.
Proof.
  intros H.
  assert (E1 := N.div_mod c 16 ltac:(discriminate)).
  assert (E2 := N.div_mod (c / 16) 16 ltac:(discriminate)).
  assert (E3 := N.div_mod (c / 16 / 16) 16 ltac:(discriminate)).
  assert (D2 : c / 256 = c / 16 / 16)
    by (rewrite N.Div0.div_div; reflexivity).
  assert (D3 : c / 4096 = c / 16 / 16 / 16)
    by (rewrite !N.Div0.div_div; reflexivity).
  assert (B : c / 16 / 16 / 16 < 16).
  { rewrite <- D3. apply N.Div0.div_lt_upper_bound. exact H. }
  rewrite D2, D3. rewrite (N.mod_small _ _ B). lia.
Qed.

Lemma run_unicode_escape (c : N) stk e acc rest :
  c < 65536 ->
  run (unicode_escape c ++ rest) (in_string stk e acc) =
  run rest (in_string stk e (c :: acc)).
Proof.
  intros H. unfold unicode_escape, in_string.
  assert (M : forall x, x mod 16 < 16) by (intros; apply N.mod_lt; discriminate).
  cbn [app run]. unfold step at 1; cbn.
  rewrite (hex_digit_hex_char _ (M _)).
  unfold step at 1; cbn [lexing stack expecting].
  rewrite (hex_digit_hex_char _ (M _)).
  unfold step at 1; cbn [lexing stack expecting].
  rewrite (hex_digit_hex_char _ (M _)).
  unfold step at 1; cbn [lexing stack expecting].
  rewrite (hex_digit_hex_char _ (M _)).
  assert (V := hex_digits_value c H).
  match goal with
  | |- run rest {| stack := _; expecting := _; lexing := LStr (?x :: _) |} = _ =>
      replace x with c by lia
  end.
  reflexivity.
Qed.

(** A code unit that needs no escape is read as itself. *)
Lemma run_plain (c : N) stk e acc rest :
  (c =? 34) = false -> (c =? 92) = false -> (c <? 32) = false ->
  run (c :: rest) (in_string stk e acc) = run rest (in_string stk e (c :: acc)).
Proof.
  intros H1 H2 H3. unfold in_string. cbn [run]. unfold step; cbn [lexing].
  rewrite H1, H2, H3. reflexivity.
Qed.

Lemma surrogate_bound (c : N) : is_high c || is_low c = true -> c < 65536.
Proof.
  unfold is_high, is_low. intros H.
  apply orb_true_iff in H as [H|H]; apply andb_true_iff in H as [_ H];
    apply N.leb_le in H; lia.
Qed.

Lemma run_quote_unit (c : N) stk e acc rest :
  run (quote_unit c ++ rest) (in_string stk e acc) =
  run rest (in_string stk e (c :: acc)).
Proof.
  unfold quote_unit.
  destruct (N.eqb_spec c 8) as [->|N8]; [reflexivity|].
  destruct (N.eqb_spec c 9) as [->|N9]; [reflexivity|].
  destruct (N.eqb_spec c 10) as [->|N10]; [reflexivity|].
  destruct (N.eqb_spec c 12) as [->|N12]; [reflexivity|].
  destruct (N.eqb_spec c 13) as [->|N13]; [reflexivity|].
  destruct (N.eqb_spec c 34) as [->|N34]; [reflexivity|].
  destruct (N.eqb_spec c 92) as [->|N92]; [reflexivity|].
  destruct (c <? 32) eqn:Hlow; cbn [orb].
  { apply run_unicode_escape. apply N.ltb_lt in Hlow. lia. }
  destruct (is_high c || is_low c) eqn:Hs.
  { apply run_unicode_escape. apply surrogate_bound; exact Hs. }
  apply run_plain; [apply N.eqb_neq; exact N34 | apply N.eqb_neq; exact N92
                   | exact Hlow].
Qed.

Lemma quote_body_cons (c d : N) (s : jsstring) :
  quote_body (c :: d :: s) =
  if is_high c && is_low d then c :: d :: quote_body s
  else quote_unit c ++ quote_body (d :: s).
Proof. reflexivity. Qed.

(** The body of a quoted string is read back code unit for code unit. *)
Lemma run_quote_body (s : jsstring) :
  forall stk e acc rest,
    run (quote_body s ++ rest) (in_string stk e acc) =
    run rest (in_string stk e (rev s ++ acc)).
Proof.
  enough (H : (forall stk e acc rest,
                 run (quote_body s ++ rest) (in_string stk e acc) =
                 run rest (in_string stk e (rev s ++ acc))) /\
              (forall c stk e acc rest,
                 run (quote_body (c :: s) ++ rest) (in_string stk e acc) =
                 run rest (in_string stk e (rev (c :: s) ++ acc))))
    by apply H.
  induction s as [|d s [IH0 IH1]].
  - split; [reflexivity|]. intros c stk e acc rest.
    cbn [quote_body rev app]. apply run_quote_unit.
  - split; [exact (IH1 d)|]. intros c stk e acc rest.
    rewrite quote_body_cons. destruct (is_high c && is_low d) eqn:Hpair.
    + apply andb_true_iff in Hpair as [Hc Hd].
      unfold is_high in Hc; unfold is_low in Hd.
      apply andb_true_iff in Hc as [Hc1 Hc2]; apply andb_true_iff in Hd as [Hd1 Hd2].
      apply N.leb_le in Hc1, Hc2, Hd1, Hd2.
      cbn [app].
      rewrite run_plain;
        [| apply N.eqb_neq; lia | apply N.eqb_neq; lia | apply N.ltb_ge; lia].
      rewrite run_plain;
        [| apply N.eqb_neq; lia | apply N.eqb_neq; lia | apply N.ltb_ge; lia].
      rewrite IH0. cbn [rev]. rewrite <- !app_assoc. reflexivity.
    + rewrite <- app_assoc, run_quote_unit, IH1.
      cbn [rev]. rewrite <- !app_assoc. reflexivity.
Qed.

Lemma stringify_message_event (content : jsstring) :
  stringify (message_event content) = Some (message_frame content).
Proof.
  unfold message_event, message_frame, jq, js. cbn. rewrite <- app_assoc.
  reflexivity.
Qed.

Lemma run_app (a b : jsstring) (p : parser) :
  run (a ++ b) p =
  match run a p with
  | Some p' => run b p'
  | None => None
  end.
Proof.
  revert p; induction a as [|c a IH]; intros p; [reflexivity|].
  cbn [app run]. destruct (step c p); [apply IH | reflexivity].
Qed.

(** [JSON.parse] gives back the event, for every content. *)
Lemma parse_message_frame (content : jsstring) :
  parse (message_frame content) = Normal (message_event content).
Proof.
  unfold parse, message_frame. rewrite run_app.
  match goal with
  | |- context [run (jq ?lit) ?p] =>
      let r := eval vm_compute in (run (jq lit) p) in
      change (run (jq lit) p) with r
  end.
  cbv beta iota.
  match goal with
  | |- context [run _ {| stack := ?stk; expecting := ?e; lexing := LStr [] |}] =>
      change {| stack := stk; expecting := e; lexing := LStr [] |}
        with (in_string stk e [])
  end.
  rewrite run_quote_body. rewrite app_nil_r.
  change (jq "'}") with [34; 125].
  unfold in_string. cbn [run]. unfold step at 1. cbn. rewrite rev_involutive.
  reflexivity.
Qed.

End OutboundFrame.

(* ------------------------------------------------------------------ *)
(** ** The outbox: [sendMessage] *)

Section Outbox.

Lemma truthy_false (t : jsstring) : truthy t = false <-> t = [].
Proof. destruct t; simpl; split; congruence. Qed.

(** The monadic text of [sendMessage], run. *)
Lemma sendMessage_run (s : State) :
  sendMessage s =
  if truthy (trim (inputMessage s)) &&
     (match socket s with Some _ => true | None => false end) &&
     isConnected s
  then
    (Normal tt, with_inputMessage s [],
     [SocketSend
        (match JSON.stringify (message_event (trim (inputMessage s))) with
         | Some text => text
         | None => js "undefined"
         end)])
  else (Normal tt, s, []).
Proof.
  unfold sendMessage, bind, read, socket_send, message_event.
  cbv beta iota.
  destruct (truthy (trim (inputMessage s)) &&
            (match socket s with Some _ => true | None => false end) &&
            isConnected s); reflexivity.
Qed.

(** C3.  When the trimmed input is empty, and whenever the connection is
    not Connected, [sendMessage] does nothing: nothing is sent, and the
    state, with the log and the pending input, is as before. *)
Theorem C3_rejected_submit_is_noop (s : State) :
  trim (inputMessage s) = [] \/ connected s = false ->
  sendMessage s = (Normal tt, s, []).
Proof.
  intros H. rewrite sendMessage_run.
  destruct H as [H|H].
  - rewrite H; reflexivity.
  - unfold connected in H.
    destruct (socket s); [rewrite H|]; rewrite ?andb_false_r; reflexivity.
Qed.

Lemma C3_blank_or_offline :
  sendMessage (alice_online (js "   ")) =
    (Normal tt, alice_online (js "   "), []) /\
  sendMessage (alice_online []) = (Normal tt, alice_online [], []) /\
  sendMessage (alice_offline (js "hello")) =
    (Normal tt, alice_offline (js "hello"), []).
Proof.
  split; [|split].
  - apply (C3_rejected_submit_is_noop (alice_online (js "   "))).
    left; reflexivity.
  - apply (C3_rejected_submit_is_noop (alice_online [])).
    left; reflexivity.
  - apply (C3_rejected_submit_is_noop (alice_offline (js "hello"))).
    right; reflexivity.
Defined.

(** C4.  When the trimmed input is not empty and the connection is
    Connected, [sendMessage] makes one call of [socket.send], with the JSON
    text of [{type: 'message', content: <trimmed input>}], which
    [JSON.parse] reads back as that object; it empties the pending input
    and leaves the log and every other cell as they were. *)
Theorem C4_submit_sends_one_message_event (s : State) :
  trim (inputMessage s) <> [] ->
  connected s = true ->
  sendMessage s =
    (Normal tt, with_inputMessage s [],
     [SocketSend (message_frame (trim (inputMessage s)))]) /\
  JSON.stringify (message_event (trim (inputMessage s))) =
    Some (message_frame (trim (inputMessage s))) /\
  JSON.parse (message_frame (trim (inputMessage s))) =
    Normal (message_event (trim (inputMessage s))) /\
  messages (with_inputMessage s []) = messages s.
Proof.
  intros Hinput Hconn.
  split; [|split; [apply stringify_message_event
                  |split; [apply parse_message_frame | reflexivity]]].
  rewrite sendMessage_run.
  unfold connected in Hconn. destruct (socket s); [|discriminate].
  rewrite Hconn.
  destruct (truthy (trim (inputMessage s))) eqn:Ht;
    [|apply truthy_false in Ht; contradiction].
  cbn [andb]. rewrite stringify_message_event. reflexivity.
Qed.

Lemma C4_hello :
  trim (inputMessage (alice_online (js " hello "))) <> [] /\
  connected (alice_online (js " hello ")) = true /\
  sendMessage (alice_online (js " hello ")) =
    (Normal tt, alice_online [],
     [SocketSend (jq "{'type':'message','content':'hello'}")]).
Proof.
  assert (H1 : trim (inputMessage (alice_online (js " hello "))) <> [])
    by discriminate.
  assert (H2 : connected (alice_online (js " hello ")) = true) by reflexivity.
  split; [exact H1 | split; [exact H2|]].
  exact (proj1 (C4_submit_sends_one_message_event _ H1 H2)).
Defined.

End Outbox.

(* ------------------------------------------------------------------ *)
(** ** Joining: [joinChat] and [connectWebSocket] *)

Section Join.

Ltac unfold_join :=
  unfold joinChat, connectWebSocket, new_WebSocket, axios_get, axios_post,
    try_catch, bind, read, emit, lift, throw, ret, setIsJoined, setSocket;
  cbn [username isJoined messages inputMessage socket isConnected fst snd app].

Lemma truthy_true (t : jsstring) : t <> [] -> truthy t = true.
Proof. destruct t; [contradiction | reflexivity]. Qed.

(** What [connectWebSocket] does: one call of the constructor, on the
    address made of the configured endpoint and of the [username] cell as
    it stands. *)
Lemma connectWebSocket_run (env : Env) (s : State) :
  connectWebSocket env s =
  if websocket_refuses env (socket_address env (username s)) then
    (Throw DOMException, s, [NewWebSocket (socket_address env (username s))])
  else
    (Normal tt,
     mkState (username s) (isJoined s) (messages s) (inputMessage s)
             (Some (mkWebSocket (socket_address env (username s))))
             (isConnected s),
     [NewWebSocket (socket_address env (username s))]).
Proof.
  unfold_join. unfold socket_address.
  destruct (websocket_refuses env _); reflexivity.
Qed.

(** C5, as amended.  With a name that is empty after trimming [joinChat]
    does nothing.  When the lookup fails with status 404 it issues one
    create request, for the trimmed name, and, when that request succeeds,
    it joins: [isJoined] is set and the socket is opened.  On any other
    failure of the lookup it logs the error and stops: no create request,
    no second lookup, the state as before. *)
Theorem C5_join_looks_up_then_creates (env : Env) (s : State) :
  (trim (username s) = [] -> joinChat env s = (Normal tt, s, [])) /\
  (trim (username s) <> [] ->
   directory_get env (js "/users/" ++ trim (username s)) =
     Throw (AxiosError (Some 404)) ->
   count_gets (snd (joinChat env s)) = 1%nat /\
   count_posts (snd (joinChat env s)) = 1%nat /\
   In (AxiosPost (js "/users") [(js "username", trim (username s))])
      (snd (joinChat env s)) /\
   (directory_post env (js "/users") [(js "username", trim (username s))] =
      Normal tt ->
    isJoined (snd (fst (joinChat env s))) = true /\
    snd (joinChat env s) =
      [AxiosGet (js "/users/" ++ trim (username s));
       AxiosPost (js "/users") [(js "username", trim (username s))];
       NewWebSocket (socket_address env (username s))])) /\
  (trim (username s) <> [] ->
   forall e : exn,
     directory_get env (js "/users/" ++ trim (username s)) = Throw e ->
     is_not_found e = false ->
     joinChat env s =
       (Normal tt, s,
        [AxiosGet (js "/users/" ++ trim (username s));
         ConsoleError (js "Error joining chat:") (Some e)])).
Proof.
  split; [|split].
  - intros H. unfold_join. rewrite H. reflexivity.
  - intros Hn Hget. apply truthy_true in Hn.
    unfold_join. rewrite Hn, Hget.
    cbn [is_not_found N.eqb Pos.eqb fst snd app].
    destruct (directory_post env _ _) as [[]|e]; cbn.
    + destruct (websocket_refuses env _); cbn; repeat split; auto;
        intros _; split; reflexivity.
    + repeat split; auto; discriminate.
  - intros Hn e Hget He. apply truthy_true in Hn.
    unfold_join. rewrite Hn, Hget. cbn. rewrite He. cbn.
    destruct s; reflexivity.
Qed.

Lemma C5_three_joins :
  joinChat full_directory (typed (js "   ")) =
    (Normal tt, typed (js "   "), []) /\
  snd (joinChat fresh_directory (typed (js "alice"))) =
    [AxiosGet (js "/users/alice");
     AxiosPost (js "/users") [(js "username", js "alice")];
     NewWebSocket (js "ws://localhost:8000/ws/alice")] /\
  joinChat unreachable_directory (typed (js "alice")) =
    (Normal tt, typed (js "alice"),
     [AxiosGet (js "/users/alice");
      ConsoleError (js "Error joining chat:") (Some (AxiosError None))]).
Proof.
  split; [|split].
  - apply (proj1 (C5_join_looks_up_then_creates full_directory
                    (typed (js "   ")))).
    reflexivity.
  - apply (proj1 (proj2 (C5_join_looks_up_then_creates fresh_directory
                           (typed (js "alice"))))).
    + discriminate.
    + reflexivity.
    + reflexivity.
  - apply (proj2 (proj2 (C5_join_looks_up_then_creates unreachable_directory
                           (typed (js "alice"))))).
    + discriminate.
    + reflexivity.
    + reflexivity.
Defined.

(** The claim as written fails when the create request fails: the lookup
    answered 404, one create request went out, and the client has not
    joined. *)
Lemma C5_failed_create_does_not_join :
  directory_get broken_create (js "/users/" ++ trim (username (typed (js "alice"))))
    = Throw (AxiosError (Some 404)) /\
  joinChat broken_create (typed (js "alice")) =
    (Throw (AxiosError (Some 500)), typed (js "alice"),
     [AxiosGet (js "/users/alice");
      AxiosPost (js "/users") [(js "username", js "alice")]]) /\
  isJoined (snd (fst (joinChat broken_create (typed (js "alice"))))) = false.
Proof. repeat split. Qed.

(** The scheme of the socket follows the scheme of the endpoint. *)
Lemma startsWith_app (p q s : jsstring) :
  startsWith (p ++ q) s = true -> startsWith p s = true.
Proof.
  revert s; induction p as [|x p IH]; intros [|y s]; cbn; auto;
    try discriminate.
  intros H. apply andb_true_iff in H as [-> H]. cbn. eauto.
Qed.

Lemma startsWith_inv (p s : jsstring) :
  startsWith p s = true -> exists r, s = p ++ r.
Proof.
  revert s; induction p as [|x p IH]; intros s; [eexists; reflexivity|].
  destruct s as [|y s]; cbn; [discriminate|].
  intros H. apply andb_true_iff in H as [Hx H]. apply N.eqb_eq in Hx.
  destruct (IH s H) as [r ->]. subst. eexists; reflexivity.
Qed.

Lemma socket_address_scheme (env : Env) (name : jsstring) :
  (startsWith (js "https://") (API_URL env) = true ->
   startsWith (js "wss://") (socket_address env name) = true) /\
  (startsWith (js "http://") (API_URL env) = true ->
   startsWith (js "ws://") (socket_address env name) = true).
Proof.
  unfold socket_address. split; intros H.
  - rewrite (startsWith_app (js "https") (js "://") _ H). reflexivity.
  - destruct (startsWith (js "https") (API_URL env)) eqn:E; [|reflexivity].
    destruct (startsWith_inv _ _ H) as [r Hr]. rewrite Hr in E.
    discriminate E.
Qed.

(** The address ends with the [username] cell as it stands: the name the
    directory was asked about only when that cell has no blank around it. *)
Lemma socket_address_name (env : Env) (name : jsstring) :
  exists host, socket_address env name = host ++ js "/ws/" ++ name.
Proof.
  unfold socket_address.
  exists ((if startsWith (js "https") (API_URL env) then js "wss" else js "ws")
            ++ js "://" ++ WS_URL env).
  rewrite <- !app_assoc. reflexivity.
Qed.

(** C6, at the input on which it fails.  The name typed with a leading
    blank is looked up and created as [alice], trimmed, and the socket is
    opened on [/ws/ alice], not trimmed. *)
Theorem C6_socket_address_keeps_the_blank :
  joinChat fresh_directory (typed (js " alice")) =
    (Normal tt,
     mkState (js " alice") true (VArr []) []
             (Some (mkWebSocket (js "ws://localhost:8000/ws/ alice"))) false,
     [AxiosGet (js "/users/alice");
      AxiosPost (js "/users") [(js "username", js "alice")];
      NewWebSocket (js "ws://localhost:8000/ws/ alice")]).
Proof. reflexivity. Qed.

End Join.

(* ------------------------------------------------------------------ *)
(** ** The transport callbacks *)

Section Transport.

Lemma handler_opens_no_socket (ev : ws_event) (s : State) :
  opens_socket (snd (handler ev s)) = false.
Proof.
  destruct ev; cbn [handler]; try reflexivity.
  destruct s as [u j m i k c]. run_onmessage; reflexivity.
Qed.

Lemma deliver_all_opens_no_socket (evs : list ws_event) (w : World) :
  opens_socket (trace w) = false ->
  opens_socket (trace (deliver_all evs w)) = false.
Proof.
  revert w; induction evs as [|ev evs IH]; intros w H; [exact H|].
  cbn [deliver_all fold_left]. apply IH. unfold deliver.
  assert (Hh := handler_opens_no_socket ev (state w)).
  destruct (handler ev (state w)) as [[[] s'] t]; cbn in *;
    unfold opens_socket in *; rewrite existsb_app, H, Hh; reflexivity.
Qed.

(** C7, as amended.  A close event clears [isConnected], so the session is
    no longer Connected, and the cell is what the view reads.  An error
    event is logged and changes nothing: the flag falls when the close
    event that follows it arrives.  No transport event, of any kind and in
    any order, makes the client open a socket. *)
Theorem C7_close_disconnects_and_nothing_reconnects (s : State)
    (evs : list ws_event) :
  ws_onclose s =
    (Normal tt,
     mkState (username s) (isJoined s) (messages s) (inputMessage s)
             (socket s) false,
     [ConsoleLog (js "Disconnected from chat")]) /\
  connected (state (deliver (start s) Close)) = false /\
  ws_onerror s = (Normal tt, s, [ConsoleError (js "WebSocket error:") None]) /\
  opens_socket (trace (deliver_all evs (start s))) = false.
Proof.
  split; [reflexivity|]. split.
  { unfold connected; cbn. destruct (socket s); reflexivity. }
  split; [reflexivity|].
  apply deliver_all_opens_no_socket. reflexivity.
Qed.

(** The claim as written fails on an error event: the session that was
    Connected still is after it. *)
Lemma C7_error_leaves_connected :
  connected (alice_online []) = true /\
  connected (state (deliver (start (alice_online [])) Error)) = true.
Proof. split; reflexivity. Qed.

End Transport.

(* ------------------------------------------------------------------ *)
(** ** The session as a whole *)

Section Session.

Lemma joinChat_cells (env : Env) (s : State) :
  isConnected (snd (fst (joinChat env s))) = isConnected s /\
  (socket s <> None -> socket (snd (fst (joinChat env s))) <> None).
Proof.
  unfold joinChat, connectWebSocket, new_WebSocket, axios_get, axios_post,
    try_catch, bind, read, emit, lift, throw, ret, setIsJoined, setSocket.
  cbn [username isJoined messages inputMessage socket isConnected fst snd app].
  destruct (truthy (trim (username s))); [|cbn; auto].
  destruct (directory_get env _) as [[]|e]; cbn.
  - destruct (websocket_refuses env _); cbn; [auto|]. split; [auto|discriminate].
  - destruct (is_not_found e); cbn; [|auto].
    destruct (directory_post env _ _) as [[]|e']; cbn; [|auto].
    destruct (websocket_refuses env _); cbn; [auto|]. split; [auto|discriminate].
Qed.

Lemma sendMessage_cells (s : State) :
  isConnected (snd (fst (sendMessage s))) = isConnected s /\
  socket (snd (fst (sendMessage s))) = socket s.
Proof.
  rewrite sendMessage_run.
  destruct (truthy (trim (inputMessage s)) &&
            (match socket s with Some _ => true | None => false end) &&
            isConnected s); cbn; auto.
Qed.

(** The flag is raised only on a socket that is held: on the states the
    component goes through, Connected and [isConnected] are the same. *)
Lemma reachable_connected (s : State) :
  reachable s -> connected s = isConnected s.
Proof.
  intros H.
  enough (I : isConnected s = true -> socket s <> None).
  { unfold connected. destruct (socket s); [reflexivity|].
    destruct (isConnected s); [|reflexivity]. exfalso; apply I; reflexivity. }
  induction H as [|s v _ IH|s v _ IH|env s _ IH|key s _ IH|s _ IH|ev s _ IH Hs].
  - discriminate.
  - exact IH.
  - exact IH.
  - destruct (joinChat_cells env s) as [Hc Hk]. rewrite Hc. auto.
  - unfold handleKeyPress. destruct (eqb key (js "Enter")); [|exact IH].
    destruct (sendMessage_cells s) as [-> ->]. exact IH.
  - destruct (sendMessage_cells s) as [-> ->]. exact IH.
  - destruct ev; cbn [handler].
    + intros _. exact Hs.
    + rewrite onmessage_frame. exact IH.
    + discriminate.
    + exact IH.
Qed.

End Session.

(* ------------------------------------------------------------------ *)
(** ** The configured endpoint and the socket address *)

Section Endpoint.

Lemma strip_trailing_slash_snoc (h : jsstring) :
  strip_trailing_slash (h ++ [47]) = h.
Proof.
  unfold strip_trailing_slash. rewrite rev_app_distr. cbn.
  apply rev_involutive.
Qed.

Lemma strip_trailing_slash_other (h : jsstring) (c : N) :
  c <> 47 -> strip_trailing_slash (h ++ [c]) = h ++ [c].
Proof.
  intros Hc. unfold strip_trailing_slash. rewrite rev_app_distr. cbn.
  destruct c as [|p]; [reflexivity|].
  destruct (N.eq_dec (N.pos p) 47) as [E|_]; [contradiction|].
  do 6 (destruct p as [p|p|]; try reflexivity). contradiction Hc; reflexivity.
Qed.

Lemma strip_scheme_https (h : jsstring) : strip_scheme (js "https://" ++ h) = h.
Proof. reflexivity. Qed.

Lemma strip_scheme_http (h : jsstring) : strip_scheme (js "http://" ++ h) = h.
Proof. reflexivity. Qed.

(** X1.  With the endpoint [https://h/] the socket is opened on
    [wss://h/ws/name], with [http://h/] on [ws://h/ws/name]: the scheme is
    replaced, one slash at the end is dropped.  Without a slash at the end
    the host part is kept as it is. *)
Theorem socket_address_of_endpoint (env : Env) (h name : jsstring) (c : N) :
  c <> 47 ->
  socket_address (configured (js "https://" ++ h ++ js "/") env) name =
    js "wss://" ++ h ++ js "/ws/" ++ name /\
  socket_address (configured (js "http://" ++ h ++ js "/") env) name =
    js "ws://" ++ h ++ js "/ws/" ++ name /\
  socket_address (configured (js "https://" ++ h ++ [c]) env) name =
    js "wss://" ++ h ++ [c] ++ js "/ws/" ++ name /\
  socket_address (configured (js "http://" ++ h ++ [c]) env) name =
    js "ws://" ++ h ++ [c] ++ js "/ws/" ++ name.
Proof.
  intros Hc. unfold socket_address, WS_URL.
  assert (A1 : forall u, API_URL (configured (js "https://" ++ u) env) =
                         js "https://" ++ u) by reflexivity.
  assert (A2 : forall u, API_URL (configured (js "http://" ++ u) env) =
                         js "http://" ++ u) by reflexivity.
  rewrite !A1, !A2, !strip_scheme_https, !strip_scheme_http.
  change (js "/") with [47].
  rewrite !strip_trailing_slash_snoc, !(strip_trailing_slash_other h c Hc).
  repeat split; rewrite <- ?app_assoc; reflexivity.
Qed.

Lemma socket_address_of_local_endpoint :
  58 <> 47 /\
  socket_address (configured (js "https://chat.example/") fresh_directory)
                 (js "alice") = js "wss://chat.example/ws/alice" /\
  socket_address (configured (js "http://10.0.0.7:8000") fresh_directory)
                 (js "alice") = js "ws://10.0.0.7:8000/ws/alice".
Proof.
  assert (H : 58 <> 47) by discriminate.
  split; [exact H|]. split.
  - exact (proj1 (socket_address_of_endpoint fresh_directory
                    (js "chat.example") (js "alice") 58 H)).
  - exact (proj2 (proj2 (proj2 (socket_address_of_endpoint fresh_directory
                    (js "10.0.0.7:800") (js "alice") 48 ltac:(discriminate))))).
Defined.

(** X2.  With no endpoint configured, or an empty one, every socket is
    opened on [ws://localhost:8000/ws/name]. *)
Theorem socket_address_without_endpoint (env : Env) (name : jsstring) :
  REACT_APP_API_URL env = None \/ REACT_APP_API_URL env = Some [] ->
  socket_address env name = js "ws://localhost:8000/ws/" ++ name.
Proof.
  intros H. unfold socket_address, WS_URL, API_URL.
  destruct H as [-> | ->]; reflexivity.
Qed.

Lemma socket_address_of_empty_endpoint :
  socket_address (configured [] fresh_directory) (js "bob") =
    js "ws://localhost:8000/ws/bob".
Proof.
  apply (socket_address_without_endpoint (configured [] fresh_directory)).
  right; reflexivity.
Defined.

End Endpoint.

(* ------------------------------------------------------------------ *)
(** ** More on joining *)

Section JoinOutcomes.

(** [joinChat], run: the five ways it can end. *)
Lemma joinChat_run (env : Env) (s : State) :
  let name := trim (username s) in
  let lookup := AxiosGet (js "/users/" ++ name) in
  let create := AxiosPost (js "/users") [(js "username", name)] in
  let address := socket_address env (username s) in
  joinChat env s =
  if truthy name then
    match directory_get env (js "/users/" ++ name) with
    | Normal _ =>
        if websocket_refuses env address then
          (Normal tt, joined s,
           [lookup; NewWebSocket address;
            ConsoleError (js "Error joining chat:") (Some DOMException)])
        else
          (Normal tt, joined_with s (mkWebSocket address),
           [lookup; NewWebSocket address])
    | Throw e =>
        if is_not_found e then
          match directory_post env (js "/users") [(js "username", name)] with
          | Normal _ =>
              if websocket_refuses env address then
                (Throw DOMException, joined s, [lookup; create; NewWebSocket address])
              else
                (Normal tt, joined_with s (mkWebSocket address),
                 [lookup; create; NewWebSocket address])
          | Throw e' => (Throw e', s, [lookup; create])
          end
        else
          (Normal tt, s, [lookup; ConsoleError (js "Error joining chat:") (Some e)])
    end
  else (Normal tt, s, []).
Proof.
  cbv zeta.
  unfold joinChat, connectWebSocket, new_WebSocket, axios_get, axios_post,
    try_catch, bind, read, emit, lift, throw, ret, setIsJoined, setSocket,
    joined, joined_with, socket_address.
  cbn [username isJoined messages inputMessage socket isConnected fst snd app].
  destruct (truthy (trim (username s))); [|reflexivity].
  destruct (directory_get env _) as [[]|e]; cbn.
  - destruct (websocket_refuses env _); reflexivity.
  - destruct (is_not_found e); cbn; [|destruct s; reflexivity].
    destruct (directory_post env _ _) as [[]|e']; cbn;
      [|destruct s; reflexivity].
    destruct (websocket_refuses env _); reflexivity.
Qed.

(** X3.  When the lookup finds the name, no create request is made and the
    client joins: [isJoined] is set and one socket is opened on the address
    of the name as typed.  When the constructor refuses that address, the
    same [catch] that handles the lookup logs the exception: the client is
    left joined without a socket. *)
Theorem join_of_a_known_name (env : Env) (s : State) :
  trim (username s) <> [] ->
  directory_get env (js "/users/" ++ trim (username s)) = Normal tt ->
  count_posts (snd (joinChat env s)) = 0%nat /\
  isJoined (snd (fst (joinChat env s))) = true /\
  (websocket_refuses env (socket_address env (username s)) = false ->
   joinChat env s =
     (Normal tt,
      joined_with s (mkWebSocket (socket_address env (username s))),
      [AxiosGet (js "/users/" ++ trim (username s));
       NewWebSocket (socket_address env (username s))])) /\
  (websocket_refuses env (socket_address env (username s)) = true ->
   joinChat env s =
     (Normal tt, joined s,
      [AxiosGet (js "/users/" ++ trim (username s));
       NewWebSocket (socket_address env (username s));
       ConsoleError (js "Error joining chat:") (Some DOMException)])).
Proof.
  intros Hn Hget. rewrite joinChat_run. cbv zeta.
  destruct (trim (username s)) as [|c n] eqn:E; [contradiction|].
  cbn [truthy]. rewrite Hget.
  destruct (websocket_refuses env _); repeat split; auto; discriminate.
Qed.

Lemma join_of_alice_known :
  joinChat full_directory (typed (js "alice")) =
    (Normal tt,
     joined_with (typed (js "alice"))
                 (mkWebSocket (js "ws://localhost:8000/ws/alice")),
     [AxiosGet (js "/users/alice");
      NewWebSocket (js "ws://localhost:8000/ws/alice")]) /\
  joinChat refusing_sockets (typed (js "alice")) =
    (Normal tt, joined (typed (js "alice")),
     [AxiosGet (js "/users/alice");
      NewWebSocket (js "ws://localhost:8000/ws/alice");
      ConsoleError (js "Error joining chat:") (Some DOMException)]).
Proof.
  split.
  - apply (proj1 (proj2 (proj2 (join_of_a_known_name full_directory
                                  (typed (js "alice"))
                                  ltac:(discriminate) eq_refl)))).
    reflexivity.
  - apply (proj2 (proj2 (proj2 (join_of_a_known_name refusing_sockets
                                  (typed (js "alice"))
                                  ltac:(discriminate) eq_refl)))).
    reflexivity.
Defined.

(** X4.  One call of [joinChat] makes at most one lookup, at most one
    create request and at most one socket, and sends nothing on a socket;
    it leaves the name, the log, the pending input and the connection flag
    as they were, and never takes [isJoined] back. *)
Theorem joinChat_is_bounded (env : Env) (s : State) :
  (count_gets (snd (joinChat env s)) <= 1)%nat /\
  (count_posts (snd (joinChat env s)) <= 1)%nat /\
  (count_sockets (snd (joinChat env s)) <= 1)%nat /\
  sent_frames (snd (joinChat env s)) = [] /\
  username (snd (fst (joinChat env s))) = username s /\
  messages (snd (fst (joinChat env s))) = messages s /\
  inputMessage (snd (fst (joinChat env s))) = inputMessage s /\
  isConnected (snd (fst (joinChat env s))) = isConnected s /\
  (isJoined (snd (fst (joinChat env s))) = true \/ isJoined s = false).
Proof.
  rewrite joinChat_run. cbv zeta.
  assert (J : isJoined s = true \/ isJoined s = false)
    by (destruct (isJoined s); auto).
  destruct (truthy (trim (username s))).
  - destruct (directory_get env _) as [[]|e].
    + destruct (websocket_refuses env _); cbn; repeat split; auto.
    + destruct (is_not_found e).
      * destruct (directory_post env _ _) as [[]|e'];
          [destruct (websocket_refuses env _)|]; cbn; repeat split; auto.
      * cbn; repeat split; auto.
  - cbn; repeat split; auto.
Qed.

(** X17.  After a 404 and a create that succeeds, an address the
    constructor refuses is not caught: the call is made inside the [catch]
    block, so the exception leaves [joinChat], with [isJoined] already set
    and no socket held. *)
Theorem refused_socket_after_create_escapes (env : Env) (s : State) :
  trim (username s) <> [] ->
  directory_get env (js "/users/" ++ trim (username s)) =
    Throw (AxiosError (Some 404)) ->
  directory_post env (js "/users") [(js "username", trim (username s))] =
    Normal tt ->
  websocket_refuses env (socket_address env (username s)) = true ->
  joinChat env s =
    (Throw DOMException, joined s,
     [AxiosGet (js "/users/" ++ trim (username s));
      AxiosPost (js "/users") [(js "username", trim (username s))];
      NewWebSocket (socket_address env (username s))]).
Proof.
  intros Hn Hget Hpost Href. rewrite joinChat_run. cbv zeta.
  destruct (trim (username s)) as [|c n] eqn:E; [contradiction|].
  cbn [truthy]. rewrite Hget. cbn [is_not_found]. 
  change (404 =? 404) with true. cbv iota. rewrite Hpost, Href. reflexivity.
Qed.

Lemma refused_socket_for_alice :
  joinChat fresh_refusing (typed (js "alice")) =
    (Throw DOMException, joined (typed (js "alice")),
     [AxiosGet (js "/users/alice");
      AxiosPost (js "/users") [(js "username", js "alice")];
      NewWebSocket (js "ws://localhost:8000/ws/alice")]).
Proof.
  apply (refused_socket_after_create_escapes fresh_refusing (typed (js "alice")));
    [discriminate | reflexivity | reflexivity | reflexivity].
Defined.

End JoinOutcomes.

(* ------------------------------------------------------------------ *)
(** ** What [trim] guarantees to the directory and to the peers *)

Section Trimmed.

Lemma trimStart_head (s : jsstring) (c : N) (r : jsstring) :
  trimStart s = c :: r -> is_whitespace c = false.
Proof.
  induction s as [|x s IH]; cbn [trimStart]; [discriminate|].
  destruct (is_whitespace x) eqn:E; [exact IH|].
  intros [= <- _]. exact E.
Qed.

(** [trimStart] drops a prefix. *)
Lemma trimStart_suffix (s : jsstring) :
  exists p, s = p ++ trimStart s.
Proof.
  induction s as [|x s [p IH]]; [exists []; reflexivity|].
  cbn [trimStart]. destruct (is_whitespace x).
  - exists (x :: p). cbn. f_equal. exact IH.
  - exists []. reflexivity.
Qed.

(** What [trim] leaves, when it leaves anything, begins and ends with a
    code unit that is not white space. *)
Lemma trim_is_trimmed (s : jsstring) :
  trim s <> [] -> trimmed_name (trim s) = true.
Proof.
  unfold trim, trimmed_name. rewrite rev_involutive.
  set (t := trimStart s). set (u := trimStart (rev t)).
  intros Hne.
  destruct u as [|d u'] eqn:Eu; [contradiction Hne; reflexivity|].
  assert (Hd : is_whitespace d = false) by (apply (trimStart_head (rev t) d u'); exact Eu).
  destruct (trimStart_suffix (rev t)) as [p Hp]. fold u in Hp. rewrite Eu in Hp.
  assert (Ht : t = rev (d :: u') ++ rev p).
  { rewrite <- rev_app_distr, <- Hp. symmetry; apply rev_involutive. }
  destruct (rev (d :: u')) as [|c r] eqn:Er.
  { apply (f_equal (@rev N)) in Er. rewrite rev_involutive in Er. discriminate. }
  assert (Hc : is_whitespace c = false).
  { apply (trimStart_head s c (r ++ rev p)). fold t. rewrite Ht. reflexivity. }
  cbn [hd_error]. rewrite Hc, Hd. reflexivity.
Qed.

Lemma truthy_not_nil (t : jsstring) : truthy t = true -> t <> [].
Proof. destruct t; [discriminate | discriminate]. Qed.

(** X5.  Whatever is typed, every request [joinChat] makes to the directory
    is about the trimmed name, and that name is not empty and has no white
    space at either end; when the trimmed name is empty there is no request
    at all. *)
Theorem directory_sees_trimmed_names (env : Env) (s : State) :
  Forall (request_about (trim (username s))) (snd (joinChat env s)) /\
  (snd (joinChat env s) = [] \/ trimmed_name (trim (username s)) = true).
Proof.
  rewrite joinChat_run. cbv zeta.
  destruct (truthy (trim (username s))) eqn:Ht; [|split; [constructor | left; reflexivity]].
  assert (Hn := trim_is_trimmed _ (truthy_not_nil _ Ht)).
  split; [|right; exact Hn].
  destruct (directory_get env _) as [[]|e].
  - destruct (websocket_refuses env _); cbn; repeat constructor.
  - destruct (is_not_found e).
    + destruct (directory_post env _ _) as [[]|e'];
        [destruct (websocket_refuses env _)|]; cbn; repeat constructor.
    + cbn; repeat constructor.
Qed.

(** X6.  Whatever is typed, [sendMessage] sends nothing or one frame; the
    frame is the JSON text of a message event whose content is not empty
    and has no white space at either end, and [JSON.parse] reads it back. *)
Theorem peers_see_trimmed_content (s : State) :
  sent_frames (snd (sendMessage s)) = [] \/
  (sent_frames (snd (sendMessage s)) = [message_frame (trim (inputMessage s))] /\
   trimmed_name (trim (inputMessage s)) = true /\
   JSON.parse (message_frame (trim (inputMessage s))) =
     Normal (message_event (trim (inputMessage s)))).
Proof.
  rewrite sendMessage_run.
  destruct (truthy (trim (inputMessage s))) eqn:Ht; [|left; reflexivity].
  destruct (socket s); [|left; reflexivity].
  destruct (isConnected s); [|left; reflexivity].
  right. cbn [andb snd]. rewrite stringify_message_event.
  split; [reflexivity|].
  split; [apply trim_is_trimmed, truthy_not_nil, Ht | apply parse_message_frame].
Qed.

End Trimmed.

(* ------------------------------------------------------------------ *)
(** ** More on the outbox and the view *)

Section OutboxAndView.

(** X7.  A second submit right after a submit does nothing, whether the
    first one sent or not: the first one has emptied the input, or was
    itself rejected. *)
Theorem second_submit_is_noop (s : State) :
  sendMessage (snd (fst (sendMessage s))) =
    (Normal tt, snd (fst (sendMessage s)), []).
Proof.
  rewrite (sendMessage_run s).
  destruct (truthy (trim (inputMessage s)) &&
            (match socket s with Some _ => true | None => false end) &&
            isConnected s) eqn:G; cbn [fst snd].
  - rewrite sendMessage_run. reflexivity.
  - rewrite sendMessage_run, G. reflexivity.
Qed.

(** X8.  On the states the component goes through, the Send button is
    enabled exactly when a submit sends a frame; and while the message
    input is disabled no key, Enter included, sends anything or changes the
    state. *)
Theorem view_agrees_with_the_guard (s : State) (key : jsstring) :
  reachable s ->
  send_button_disabled s =
    (match sent_frames (snd (sendMessage s)) with [] => true | _ :: _ => false end) /\
  (chat_input_disabled s = true -> handleKeyPress key s = (Normal tt, s, [])).
Proof.
  intros Hr. assert (Hc := reachable_connected s Hr). unfold connected in Hc.
  split.
  - rewrite sendMessage_run. unfold send_button_disabled.
    destruct (truthy (trim (inputMessage s))); cbn [andb negb orb].
    + destruct (socket s); [|rewrite <- Hc; reflexivity].
      destruct (isConnected s); reflexivity.
    + rewrite orb_true_r. reflexivity.
  - unfold chat_input_disabled, handleKeyPress. intros Hd.
    apply negb_true_iff in Hd.
    destruct (eqb key (js "Enter")); [|reflexivity].
    rewrite sendMessage_run, Hd, andb_false_r. reflexivity.
Qed.

Lemma view_of_alice :
  reachable (snd (fst (setInputMessage (js "hi") initial))) /\
  send_button_disabled (snd (fst (setInputMessage (js "hi") initial))) = true.
Proof.
  assert (H : reachable (snd (fst (setInputMessage (js "hi") initial))))
    by (apply reach_setInputMessage, reach_initial).
  split; [exact H|].
  rewrite (proj1 (view_agrees_with_the_guard _ (js "Enter") H)). reflexivity.
Defined.

End OutboxAndView.

(* ------------------------------------------------------------------ *)
(** ** More on the frame handler *)

Section FrameEdges.

(** X9.  A frame that is JSON but not an object: [null] makes the read of
    [data.type] throw a TypeError; a number, a string, a boolean or an array
    has no [type] and falls to the [default] case.  The state is as before
    in both cases. *)
Theorem frame_that_is_not_an_object (raw : jsstring) (data : value) (s : State) :
  JSON.parse raw = Normal data ->
  match data with
  | VNull | VUndefined => ws_onmessage raw s = (Throw TypeError, s, [])
  | VBool _ | VNum _ | VStr _ | VArr _ => ws_onmessage raw s = (Normal tt, s, [])
  | VObj _ => True
  end.
Proof.
  intros Hp.
  destruct data; try (unfold_onmessage; rewrite Hp; reflexivity).
  exact I.
Qed.

Lemma frames_null_and_number :
  ws_onmessage null_frame (alice_online []) =
    (Throw TypeError, alice_online [], []) /\
  ws_onmessage number_frame (alice_online []) =
    (Normal tt, alice_online [], []).
Proof.
  split.
  - exact (frame_that_is_not_an_object null_frame VNull (alice_online []) eq_refl).
  - exact (frame_that_is_not_an_object number_frame (VNum (js "42"))
             (alice_online []) eq_refl).
Defined.

Lemma payload_of_get (raw field : jsstring) (data v : value) :
  JSON.parse raw = Normal data -> get data field = Normal v ->
  payload raw field = v.
Proof. intros Hp Hg. unfold payload. rewrite Hp, Hg. reflexivity. Qed.

(** X10.  A presence frame leaves the whole state as it was, whatever its
    [username] is, present or not.  It writes one console line, unless the
    template cannot print the value (an object with its own [toString],
    alone or inside arrays): then the handler throws a TypeError and writes
    nothing. *)
Theorem presence_frame_with_any_payload (raw : jsstring) (s : State) :
  tag_is raw (js "user_joined") = true \/ tag_is raw (js "user_left") = true ->
  ws_onmessage raw s =
    if ToString_throws (payload raw (js "username")) then (Throw TypeError, s, [])
    else (Normal tt, s,
          [ConsoleLogPresence (payload raw (js "username")) (presence_text raw)]).
Proof.
  intros Htag.
  assert (exists data tag,
             JSON.parse raw = Normal data /\
             get data (js "type") = Normal (VStr tag) /\
             (tag = js "user_joined" \/ tag = js "user_left"))
    as (data & tag & Hp & Ht & Hcase).
  { destruct Htag as [H|H]; destruct (tag_is_inv _ _ H) as (data & Hp & Ht);
      exists data; eexists; eauto. }
  destruct (get_after_get data _ (js "username") _ Ht) as [who Hw].
  rewrite (payload_of_get raw _ data who Hp Hw).
  unfold presence_text, tag_is. rewrite Hp, Ht.
  unfold_onmessage. rewrite Hp; cbn. rewrite Ht; cbn.
  destruct Hcase as [-> | ->];
    repeat match goal with
           | |- context [strict_equals (VStr (js ?a)) (js ?b)] =>
               let r := eval vm_compute in (strict_equals (VStr (js a)) (js b)) in
               change (strict_equals (VStr (js a)) (js b)) with r
           end; cbn; rewrite Hw; cbn;
    destruct (ToString_throws who); reflexivity.
Qed.

Lemma presence_without_a_name :
  ws_onmessage unprintable_presence (alice_online []) =
    (Throw TypeError, alice_online [], []) /\
  ws_onmessage nameless_presence (alice_online []) =
    (Normal tt, alice_online [],
     [ConsoleLogPresence VUndefined (js " joined the chat")]).
Proof.
  split.
  - exact (presence_frame_with_any_payload unprintable_presence
             (alice_online []) (or_intror eq_refl)).
  - exact (presence_frame_with_any_payload nameless_presence
             (alice_online []) (or_introl eq_refl)).
Defined.

End FrameEdges.

(* ------------------------------------------------------------------ *)
(** ** The log over a stream of arbitrary frames *)

Section LogOverStreams.

(** What one frame, of any kind, does to the log: a [history] frame puts
    its [messages] property in its place; any other frame leaves it or
    appends one element to it. *)
Lemma onmessage_log_cases (raw : jsstring) (s : State) :
  (tag_is raw (js "history") = true /\
   messages (snd (fst (ws_onmessage raw s))) = payload raw (js "messages")) \/
  (tag_is raw (js "history") = false /\
   (messages (snd (fst (ws_onmessage raw s))) = messages s \/
    exists l x, spread (messages s) = Normal l /\
                messages (snd (fst (ws_onmessage raw s))) = VArr (l ++ [x]))).
Proof.
  unfold tag_is, payload.
  destruct (JSON.parse raw) as [data|e] eqn:Hp;
    [|right; split; [reflexivity|left];
      rewrite (onmessage_not_json _ _ s Hp); reflexivity].
  destruct (get data (js "type")) as [t|e] eqn:Ht;
    [|right; split; [reflexivity|left];
      unfold_onmessage; rewrite Hp; cbn; rewrite Ht; reflexivity].
  destruct (strict_equals t (js "history")) eqn:E1.
  - left. split; [reflexivity|].
    destruct (get_after_get data _ (js "messages") _ Ht) as [v Hv]. rewrite Hv.
    unfold_onmessage. rewrite Hp; cbn. rewrite Ht; cbn. rewrite E1; cbn.
    rewrite Hv. reflexivity.
  - right. split; [reflexivity|].
    destruct s as [u j m i k c].
    unfold_onmessage. rewrite Hp; cbn. rewrite Ht; cbn. rewrite E1; cbn.
    destruct (strict_equals t (js "new_message")); cbn.
    { destruct (spread m) as [l|] eqn:Hs; cbn; [|left; reflexivity].
      destruct (get data (js "message")) as [x|]; cbn; [|left; reflexivity].
      right. exists l, x. split; reflexivity. }
    repeat (case_step; cbn); left; reflexivity.
Qed.

Lemma deliver_all_app (a b : list ws_event) (w : World) :
  deliver_all (a ++ b) w = deliver_all b (deliver_all a w).
Proof. apply fold_left_app. Qed.

Lemma deliver_message_log (w : World) (raw : jsstring) :
  log (deliver w (Message raw)) = messages (snd (fst (ws_onmessage raw (state w)))).
Proof.
  unfold log, deliver; cbn [handler].
  destruct (ws_onmessage raw (state w)) as [[[] s'] t]; reflexivity.
Qed.

Lemma deliver_all_log (frames : list jsstring) (w1 w2 : World) :
  log w1 = log w2 ->
  log (deliver_all (map Message frames) w1) =
  log (deliver_all (map Message frames) w2).
Proof.
  revert w1 w2; induction frames as [|raw frames IH]; intros w1 w2 H; [exact H|].
  cbn [map deliver_all fold_left]. apply IH.
  rewrite !deliver_message_log.
  apply (onmessage_reads_only_log raw (state w1) (state w2) H).
Qed.

(** X11.  In a session that is alive, a [history] frame is a fresh start.
    When every log on the way to the frame has been one the view renders,
    the log after the frame, and after any frames that follow it, does not
    depend on the frames that came before it nor on the state they were
    delivered to: it is the log of a second session, alive too, that
    receives the [history] frame first. *)
Theorem history_forgets_the_past
    (before after : list jsstring) (raw : jsstring) (s s' : State) :
  (forall k : nat,
      is_plain_log (log (process_frames (firstn k before) s)) = true) ->
  is_plain_log (messages s') = true ->
  tag_is raw (js "history") = true ->
  log (process_frames (before ++ raw :: after) s) =
  log (process_frames (raw :: after) s').
Proof.
  intros _ _ Htag. unfold process_frames.
  rewrite map_app, deliver_all_app. cbn [map deliver_all fold_left].
  apply deliver_all_log. rewrite !deliver_message_log.
  destruct (onmessage_log_cases raw (state (deliver_all (map Message before) (start s))))
    as [[_ H1]|[H1 _]]; [|congruence].
  destruct (onmessage_log_cases raw (state (start s'))) as [[_ H2]|[H2 _]];
    [|congruence].
  rewrite H1, H2. reflexivity.
Qed.

Lemma history_after_traffic :
  is_plain_log (messages (alice_online [])) = true /\
  tag_is history_empty (js "history") = true /\
  log (process_frames [bob_says_hi; not_json; bob_left;
                       history_empty; bob_says_hi] (alice_offline (js "x"))) =
  log (process_frames [history_empty; bob_says_hi] (alice_online [])).
Proof.
  assert (H1 : is_plain_log (messages (alice_online [])) = true) by reflexivity.
  assert (H2 : tag_is history_empty (js "history") = true) by reflexivity.
  split; [exact H1 | split; [exact H2|]].
  apply (history_forgets_the_past [bob_says_hi; not_json; bob_left]
           [bob_says_hi] history_empty (alice_offline (js "x"))
           (alice_online [])); [|exact H1 | exact H2].
  intros k.
  do 3 (destruct k as [|k]; [vm_compute; reflexivity|]).
  destruct k; vm_compute; reflexivity.
Defined.

(** X12.  The log stays an array as long as every [history] frame brings an
    array: no other frame, well formed or not, can change its shape. *)
Theorem log_stays_an_array (frames : list jsstring) (s : State) :
  is_array (messages s) = true ->
  (forall raw, In raw frames -> tag_is raw (js "history") = true ->
               is_array (payload raw (js "messages")) = true) ->
  is_array (log (process_frames frames s)) = true.
Proof.
  unfold process_frames.
  assert (G : forall w, is_array (log w) = true ->
                (forall raw, In raw frames -> tag_is raw (js "history") = true ->
                             is_array (payload raw (js "messages")) = true) ->
                is_array (log (deliver_all (map Message frames) w)) = true);
    [|intros H1 H2; apply G; assumption].
  induction frames as [|raw frames IH]; intros w Hw Hh; [exact Hw|].
  cbn [map deliver_all fold_left]. apply IH.
  - rewrite deliver_message_log.
    destruct (onmessage_log_cases raw (state w)) as [[Ht ->]|[_ [-> | (l & x & _ & ->)]]].
    + apply (Hh raw); [left; reflexivity | exact Ht].
    + exact Hw.
    + reflexivity.
  - intros r Hr. apply Hh. right; exact Hr.
Qed.

Lemma log_stays_an_array_through_garbage :
  is_array (log (process_frames [not_json; null_frame; bob_joined;
                                 history_of_bob; unknown_tag] initial)) = true.
Proof.
  apply log_stays_an_array; [reflexivity|].
  intros raw Hin Htag.
  repeat (destruct Hin as [<-|Hin];
          [first [vm_compute in Htag; discriminate Htag | vm_compute; reflexivity]|]).
  destruct Hin.
Defined.

(** X13.  Between [history] frames the log is append-only: after a sequence
    without a [history] frame, delivered to a log that is an array, the log
    is the old one followed by at most one new element per frame; nothing is
    removed or moved. *)
Theorem log_is_append_only (frames : list jsstring) (s : State) (l : list value) :
  messages s = VArr l ->
  (forall raw, In raw frames -> tag_is raw (js "history") = false) ->
  exists added,
    log (process_frames frames s) = VArr (l ++ added) /\
    (List.length added <= List.length frames)%nat.
Proof.
  unfold process_frames.
  assert (G : forall w l0, log w = VArr l0 ->
                (forall raw, In raw frames -> tag_is raw (js "history") = false) ->
                exists added,
                  log (deliver_all (map Message frames) w) = VArr (l0 ++ added) /\
                  (List.length added <= List.length frames)%nat);
    [|intros H1 H2; apply G; assumption].
  clear s l.
  induction frames as [|raw frames IH]; intros w l Hw Hh.
  - exists []. rewrite app_nil_r. split; [exact Hw | apply le_n].
  - cbn [map deliver_all fold_left].
    assert (Hrest : forall r, In r frames -> tag_is r (js "history") = false)
      by (intros r Hr; apply Hh; right; exact Hr).
    assert (Hraw := Hh raw (or_introl eq_refl)).
    destruct (onmessage_log_cases raw (state w))
      as [[Ht _]|[_ [Hsame | (l' & x & Hsp & Hnew)]]]; [congruence| |].
    + destruct (IH (deliver w (Message raw)) l) as (added & Hlog & Hlen);
        [rewrite deliver_message_log, Hsame; exact Hw | exact Hrest |].
      exists added. split; [exact Hlog | cbn; lia].
    + unfold log in Hw. rewrite Hw in Hsp. injection Hsp as <-.
      destruct (IH (deliver w (Message raw)) (l ++ [x])) as (added & Hlog & Hlen);
        [rewrite deliver_message_log; exact Hnew | exact Hrest |].
      exists (x :: added). rewrite <- app_assoc in Hlog.
      split; [exact Hlog | cbn; lia].
Qed.

Lemma log_grows_by_one :
  messages (alice_online []) = VArr [bob_message] /\
  exists added,
    log (process_frames [bob_joined; bob_says_hi; not_json] (alice_online [])) =
      VArr ([bob_message] ++ added) /\
    (List.length added <= 3)%nat.
Proof.
  split; [reflexivity|].
  apply (log_is_append_only [bob_joined; bob_says_hi; not_json]
           (alice_online []) [bob_message] eq_refl).
  intros raw Hin.
  repeat (destruct Hin as [<-|Hin]; [vm_compute; reflexivity|]).
  destruct Hin.
Defined.

End LogOverStreams.

(* ------------------------------------------------------------------ *)
(** ** More on the transport callbacks *)

Section TransportCells.

(** What one transport event does to the cells and to the outside: only
    [messages] and [isConnected] can change, and only console lines are
    written. *)
Lemma handler_cells (ev : ws_event) (s : State) :
  username (snd (fst (handler ev s))) = username s /\
  isJoined (snd (fst (handler ev s))) = isJoined s /\
  inputMessage (snd (fst (handler ev s))) = inputMessage s /\
  socket (snd (fst (handler ev s))) = socket s /\
  forallb console_only (snd (handler ev s)) = true /\
  isConnected (snd (fst (handler ev s))) =
    match ev with
    | Open => true
    | Close => false
    | _ => isConnected s
    end.
Proof.
  destruct ev; cbn [handler]; try (repeat split; reflexivity).
  rewrite onmessage_frame.
  repeat split; try reflexivity.
  destruct s as [u j m i k c]. run_onmessage; reflexivity.
Qed.

Lemma deliver_cells (w : World) (ev : ws_event) :
  state (deliver w ev) = snd (fst (handler ev (state w))) /\
  trace (deliver w ev) = trace w ++ snd (handler ev (state w)).
Proof.
  unfold deliver. destruct (handler ev (state w)) as [[[] s'] t]; split; reflexivity.
Qed.

(** X14.  After any sequence of transport events the connection flag is
    what the last open or close event of the sequence says; message and
    error events do not touch it, and without an open or close event it is
    as before. *)
Theorem flag_follows_last_open_or_close (evs : list ws_event) (s : State) :
  isConnected (state (deliver_all evs (start s))) =
    match last_open_or_close evs with
    | Some b => b
    | None => isConnected s
    end.
Proof.
  change (isConnected s) with (isConnected (state (start s))).
  generalize (start s) as w.
  induction evs as [|ev evs IH]; intros w; [reflexivity|].
  cbn [deliver_all fold_left last_open_or_close].
  change (fold_left deliver evs (deliver w ev)) with (deliver_all evs (deliver w ev)).
  rewrite IH. destruct (last_open_or_close evs); [reflexivity|].
  destruct (deliver_cells w ev) as [-> _].
  destruct (handler_cells ev (state w)) as (_ & _ & _ & _ & _ & ->).
  destruct ev; reflexivity.
Qed.

(** X15.  Transport events, of any kind and in any order, never change the
    name, [isJoined], the pending input or the socket held, and write
    nothing but console lines: no request to the directory, no frame sent,
    no socket opened. *)
Theorem transport_touches_only_log_and_flag (evs : list ws_event) (s : State) :
  username (state (deliver_all evs (start s))) = username s /\
  isJoined (state (deliver_all evs (start s))) = isJoined s /\
  inputMessage (state (deliver_all evs (start s))) = inputMessage s /\
  socket (state (deliver_all evs (start s))) = socket s /\
  forallb console_only (trace (deliver_all evs (start s))) = true.
Proof.
  change s with (state (start s)) at 2 4 6 8.
  assert (Ht : forallb console_only (trace (start s)) = true) by reflexivity.
  revert Ht. generalize (start s) as w.
  induction evs as [|ev evs IH]; intros w Ht; [repeat split; exact Ht|].
  cbn [deliver_all fold_left].
  change (fold_left deliver evs (deliver w ev)) with (deliver_all evs (deliver w ev)).
  destruct (deliver_cells w ev) as [Hs Htr].
  destruct (handler_cells ev (state w)) as (H1 & H2 & H3 & H4 & H5 & _).
  destruct (IH (deliver w ev)) as (I1 & I2 & I3 & I4 & I5).
  { rewrite Htr, forallb_app, Ht, H5. reflexivity. }
  rewrite I1, I2, I3, I4, Hs, H1, H2, H3, H4. repeat split. exact I5.
Qed.

End TransportCells.

(* ------------------------------------------------------------------ *)
(** ** Before the join *)

Section BeforeJoin.

Lemma sendMessage_other_cells (s : State) :
  snd (fst (sendMessage s)) = s \/
  snd (fst (sendMessage s)) = with_inputMessage s [].
Proof.
  rewrite sendMessage_run.
  destruct (truthy (trim (inputMessage s)) &&
            (match socket s with Some _ => true | None => false end) &&
            isConnected s); cbn; auto.
Qed.

Lemma joinChat_states (env : Env) (s : State) :
  snd (fst (joinChat env s)) = s \/
  snd (fst (joinChat env s)) = joined s \/
  exists ws, snd (fst (joinChat env s)) = joined_with s ws.
Proof.
  rewrite joinChat_run. cbv zeta.
  destruct (truthy (trim (username s))); [|cbn; auto].
  destruct (directory_get env _) as [[]|e].
  - destruct (websocket_refuses env _); cbn; eauto.
  - destruct (is_not_found e); [|cbn; auto].
    destruct (directory_post env _ _) as [[]|e'];
      [destruct (websocket_refuses env _)|]; cbn; eauto.
Qed.

(** X16.  As long as the join form is shown nothing has happened yet: on
    every state the component goes through with [isJoined] false there is
    no socket, the connection flag is down and the log is the empty array.
    A socket is only ever held by a session that has joined. *)
Theorem nothing_before_the_join (s : State) :
  reachable s ->
  shows_join_form s = true ->
  socket s = None /\ isConnected s = false /\ messages s = VArr [].
Proof.
  intros Hr.
  enough (I : (socket s <> None -> isJoined s = true) /\
              (isConnected s = true -> socket s <> None) /\
              (socket s = None -> messages s = VArr [])).
  { destruct I as (I1 & I2 & I3). unfold shows_join_form.
    intros Hj. apply negb_true_iff in Hj.
    assert (Hs : socket s = None).
    { destruct (socket s) as [ws|]; [|reflexivity].
      rewrite I1 in Hj; [discriminate | discriminate]. }
    split; [exact Hs|]. split; [|exact (I3 Hs)].
    destruct (isConnected s); [|reflexivity].
    exfalso. apply I2; [reflexivity | exact Hs]. }
  induction Hr as [|s v _ IH|s v _ IH|env s _ IH|key s _ IH|s _ IH|ev s _ IH Hs].
  - repeat split; try discriminate. intros H; contradiction H; reflexivity.
  - exact IH.
  - exact IH.
  - destruct IH as (I1 & I2 & I3).
    destruct (joinChat_states env s) as [-> | [-> | [ws ->]]];
      cbn [joined joined_with socket isJoined isConnected messages]; auto.
    repeat split; auto; discriminate.
  - unfold handleKeyPress. destruct (eqb key (js "Enter")); [|exact IH].
    destruct (sendMessage_other_cells s) as [-> | ->]; exact IH.
  - destruct (sendMessage_other_cells s) as [-> | ->]; exact IH.
  - destruct IH as (I1 & I2 & I3).
    destruct (handler_cells ev s) as (_ & H2 & _ & H4 & _ & _).
    rewrite H2, H4. repeat split; auto.
    intros Hn. contradiction.
Qed.

Lemma nothing_before_a_failed_join :
  reachable (snd (fst (joinChat unreachable_directory (typed (js "alice"))))) /\
  socket (snd (fst (joinChat unreachable_directory (typed (js "alice"))))) = None.
Proof.
  assert (H : reachable (snd (fst (joinChat unreachable_directory
                                     (typed (js "alice")))))).
  { apply reach_joinChat.
    exact (reach_setUsername initial (js "alice") reach_initial). }
  split; [exact H|].
  exact (proj1 (nothing_before_the_join _ H eq_refl)).
Defined.

End BeforeJoin.
